(** * gbak: backup of a GitHub user's repositories

    A shallow embedding of [gbak.py] and the properties of its
    fetch / backoff / cancellation pipeline.

    The script is a sequence of effects (HTTP requests, clock reads,
    file-system operations, sleeps, log lines) with early exits
    ([exit(n)], uncaught exceptions) and one global flag, [SIGNINT], set by
    the SIGINT handler.  It is embedded in a state-and-exit monad [M] that
    also collects the list of observable events of a run.  Everything the
    script reads from outside (file system, environment, network, clock,
    signal arrival) is a field of the record [World]. *)

From Stdlib Require Import ZArith Ascii String List Lia.
From Stdlib.Strings Require Import Byte.
From Stdlib Require Import NArith DecimalString.
From stdpp Require Import base option list gmap strings.

Import ListNotations.
Local Open Scope string_scope.
Set Warnings "-register-all".

(** ** Python values *)

(** The result of [Response.json()]: a JSON document turned into Python
    objects.  An object is the list of its items, keys unique (a Python
    dict), numbers are integers. *)
Inductive Json : Type :=
| JNull
| JBool (b : bool)
| JNum (n : Z)
| JStr (s : string)
| JArr (items : list Json)
| JObj (items : list (string * Json)).

(** The exceptions the script can meet. *)
Inductive PyExc : Type :=
| IndexError
| KeyError
| TypeError
| ValueError
| OSError
| JSONDecodeError
| HTTPError (text : string)
| ConnectionError
| Timeout
| TooManyRedirects.

(** A pure Python expression either has a value or raises. *)
Definition Py (A : Type) : Type := PyExc + A.

Definition py_bind {A B} (x : Py A) (f : A -> Py B) : Py B :=
  match x with
  | inl e => inl e
  | inr a => f a
  end.

Fixpoint assoc (k : string) (kv : list (string * Json)) : option Json :=
  match kv with
  | [] => None
  | (k', v) :: rest => if String.eqb k k' then Some v else assoc k rest
  end.

(** [j[k]] for a string key [k]. *)
Definition getitem_str (j : Json) (k : string) : Py Json :=
  match j with
  | JObj kv => match assoc k kv with
               | Some v => inr v
               | None => inl KeyError
               end
  | _ => inl TypeError
  end.

(** [j[i]] for an integer index [i >= 0]. *)
Definition getitem_int (j : Json) (i : nat) : Py Json :=
  match j with
  | JArr l => match nth_error l i with
              | Some v => inr v
              | None => inl IndexError
              end
  | JStr s => match String.get i s with
              | Some c => inr (JStr (String c EmptyString))
              | None => inl IndexError
              end
  | JObj _ => inl KeyError
  | _ => inl TypeError
  end.

Fixpoint chars (s : string) : list Json :=
  match s with
  | EmptyString => []
  | String c s' => JStr (String c EmptyString) :: chars s'
  end.

(** The elements [for x in j] visits. *)
Definition py_iter (j : Json) : Py (list Json) :=
  match j with
  | JArr l => inr l
  | JObj kv => inr (map (fun p => JStr (fst p)) kv)
  | JStr s => inr (chars s)
  | _ => inl TypeError
  end.

Fixpoint py_mapM {A B} (f : A -> Py B) (l : list A) : Py (list B) :=
  match l with
  | [] => inr []
  | x :: rest =>
      py_bind (f x) (fun y => py_bind (py_mapM f rest) (fun ys => inr (y :: ys)))
  end.

(** *** [int(str)], base 10, ASCII input

    Surrounding white space is dropped, one sign is allowed, and digits may
    be grouped by single underscores. *)

Definition is_space (c : ascii) : bool :=
  let n := nat_of_ascii c in
  (n =? 32)%nat || ((9 <=? n)%nat && (n <=? 13)%nat).

Definition digit_of (c : ascii) : option Z :=
  let n := nat_of_ascii c in
  if ((48 <=? n)%nat && (n <=? 57)%nat)%bool then Some (Z.of_nat n - 48)%Z else None.

Fixpoint lstrip (l : list ascii) : list ascii :=
  match l with
  | c :: rest => if is_space c then lstrip rest else l
  | [] => []
  end.

Definition strip (l : list ascii) : list ascii :=
  rev (lstrip (rev (lstrip l))).

Fixpoint digits (l : list ascii) (acc : Z) (after_digit : bool) : option Z :=
  match l with
  | [] => if after_digit then Some acc else None
  | c :: rest =>
      match digit_of c with
      | Some d => digits rest (10 * acc + d)%Z true
      | None =>
          if (Ascii.eqb c "_" && after_digit)%bool then digits rest acc false else None
      end
  end.

Definition py_int (s : string) : Py Z :=
  let body :=
    match strip (list_ascii_of_string s) with
    | c :: rest =>
        if Ascii.eqb c "-" then option_map Z.opp (digits rest 0%Z false)
        else if Ascii.eqb c "+" then digits rest 0%Z false
        else digits (c :: rest) 0%Z false
    | [] => None
    end in
  match body with
  | Some n => inr n
  | None => inl ValueError
  end.

(** *** Format specifications of [log_fmt] *)

(** [f'{s:ns}']: left-justified in a field of [n] characters. *)
Fixpoint spaces (n : nat) : string :=
  match n with
  | O => ""
  | S k => " " ++ spaces k
  end.

Definition ljust (s : string) (n : nat) : string :=
  s ++ spaces (n - String.length s).

(** [format(j, '20s')]: only a [str] has the [s] presentation type. *)
Definition format_s (j : Json) (n : nat) : Py string :=
  match j with
  | JStr s => inr (ljust s n)
  | JNum _ | JBool _ => inl ValueError
  | _ => inl TypeError
  end.

(** ["[" + branch + "]"] *)
Definition bracket (branch : Json) : Py Json :=
  match branch with
  | JStr b => inr (JStr ("[" ++ b ++ "]"))
  | _ => inl TypeError
  end.

Definition log_fmt (message : string) (name branch : Json) : Py string :=
  py_bind (format_s name 20) (fun n =>
  py_bind (bracket branch) (fun bb =>
  py_bind (format_s bb 20) (fun b =>
  inr (ljust message 8 ++ "  " ++ n ++ " " ++ b)))).

(** ** The outside world *)

(** A response of [requests].  The header names are spelled as the script
    spells them ([requests] compares them without regard to case). *)
Record Response : Type := {
  status_code : Z;
  resp_headers : gmap string string;
  content : list byte;
  text : string;
  json : option Json          (* [None]: the body is not JSON *)
}.

Inductive GetResult : Type :=
| GetOk (r : Response)
| GetConnectionError
| GetTimeout
| GetTooManyRedirects.

(** The parsed command line. *)
Record Args : Type := {
  user : string;
  dest : string;
  all_branches : bool;
  tar_gz : bool
}.

Record World : Type := {
  (** [os.path.isdir] *)
  w_isdir : string -> bool;
  (** [os.environ] *)
  w_environ : gmap string string;
  (** answer to the [n]-th GET of the run *)
  w_http : nat -> string -> gmap string string -> GetResult;
  (** [datetime.now()] at a step of the run, in microseconds *)
  w_clock : nat -> Z;
  (** [datetime.isoformat] *)
  w_isoformat : Z -> string;
  (** does [os.makedirs(path, exist_ok=False)] succeed *)
  w_makedirs : string -> bool;
  (** does [open(path, 'wb')] succeed *)
  w_open : string -> bool;
  (** is a SIGINT delivered during the given step of the run *)
  w_sigint : nat -> bool;
  (** [str(j)] for a value that is not a [str] *)
  w_repr : Json -> string
}.

(** ** Observable events *)

Inductive LogMsg : Type :=
| ApproachingRateLimit
| FailedToConnectText (text : string)
| FailedToConnect
| RequestTimedOut
| TooManyRedirectsMsg
| InvalidDestination
| InvalidResponse (repos : Json)
| StartingBackup (user : string) (authenticated : bool) (timestamp : string)
| FailedToCreateDirectory (dest timestamp : string)
| BackupCompleted (now : string) (bytes_total : nat) (dest : string) (elapsed : Z).

Inductive Level : Type := ERROR | WARNING | INFO.

Inductive SpinnerOp : Type :=
| SpStart
| SpStop
| SpText (remaining : nat)
| SpFetching (text : string)
| SpSucceed (text : string) (bytes_written : nat).

Inductive Event : Type :=
| EvSignal                                   (* [signal_handler] ran *)
| EvPoll (flag : bool)                       (* [if SIGNINT:] *)
| EvIsDir (path : string)
| EvGet (url : string) (headers : gmap string string)
| EvSleep (secs : nat)
| EvNow
| EvMakedirs (path : string)
| EvOpen (path : string)
| EvWrite (path : string) (data : list byte)
| EvLog (lvl : Level) (msg : LogMsg)
| EvSpinner (op : SpinnerOp).

(** ** Program state *)

Record State : Type := {
  SIGNINT : bool;                        (* the global flag *)
  tick : nat;                            (* steps taken so far *)
  nreq : nat;                            (* GET requests issued so far *)
  files : gmap string (list byte)        (* contents of the files written *)
}.

Definition RATE_LIMIT_WAIT_TIME_S : nat := 10.
Definition RATE_LIMIT_WARNING_THRESHOLD : Z := 10.

Definition initial : State :=
  {| SIGNINT := false; tick := 0; nreq := 0; files := ∅ |}.

(** [global SIGNINT; SIGNINT = True] *)
Definition signal_handler (s : State) : State :=
  {| SIGNINT := true; tick := tick s; nreq := nreq s; files := files s |}.

(** ** The monad *)

Inductive Outcome (A : Type) : Type :=
| Ret (a : A)
| Exit (code : Z)              (* [exit(code)], that is [SystemExit] *)
| Raise (e : PyExc).           (* an exception on its way up *)
Arguments Ret {A} a.
Arguments Exit {A} code.
Arguments Raise {A} e.

Record Run (A : Type) : Type := {
  outcome : Outcome A;
  final : State;
  events : list Event
}.
Arguments outcome {A} _.
Arguments final {A} _.
Arguments events {A} _.
Arguments Build_Run {A} _ _ _.

Definition M (A : Type) : Type := State -> Run A.

Definition ret {A} (a : A) : M A :=
  fun s => Build_Run (Ret a) s [].

Definition exit {A} (code : Z) : M A :=
  fun s => Build_Run (Exit code) s [].

Definition raise {A} (e : PyExc) : M A :=
  fun s => Build_Run (Raise e) s [].

Definition bind {A B} (m : M A) (f : A -> M B) : M B :=
  fun s =>
    let r := m s in
    match outcome r with
    | Ret a =>
        let r' := f a (final r) in
        Build_Run (outcome r') (final r') (events r ++ events r')
    | Exit c => Build_Run (Exit c) (final r) (events r)
    | Raise e => Build_Run (Raise e) (final r) (events r)
    end.

(** [try: m  except ...: h]; the handler re-raises what no clause takes.
    [SystemExit] passes through. *)
Definition try_except {A} (m : M A) (h : PyExc -> M A) : M A :=
  fun s =>
    let r := m s in
    match outcome r with
    | Raise e =>
        let r' := h e (final r) in
        Build_Run (outcome r') (final r') (events r ++ events r')
    | _ => r
    end.

Definition of_py {A} (x : Py A) : M A :=
  match x with
  | inl e => raise e
  | inr a => ret a
  end.

Notation "x <- m ;; k" := (bind m (fun x => k))
  (at level 100, m at next level, right associativity).
Notation "m ;;; k" := (bind m (fun _ => k))
  (at level 100, right associativity).

Definition get : M State :=
  fun s => Build_Run (Ret s) s [].

Definition modify (f : State -> State) : M unit :=
  fun s => Build_Run (Ret tt) (f s) [].

Definition exit_status {A} (o : Outcome A) : Z :=
  match o with
  | Ret _ => 0              (* the script ran to its end *)
  | Exit c => c mod 256
  | Raise _ => 1            (* traceback *)
  end.

(** ** The script *)

Definition search_url (user : string) : string :=
  "https://api.github.com/search/repositories?q=user:" ++ user.

Definition branches_url (user repo_name : string) : string :=
  "https://api.github.com/repos/" ++ user ++ "/" ++ repo_name ++ "/branches".

Definition archive_url (user repo_name branch file_extension : string) : string :=
  "https://github.com/" ++ user ++ "/" ++ repo_name ++ "/archive/refs/heads/"
  ++ branch ++ "." ++ file_extension.

(** [f'{dest}{timestamp}/{repo_name}_{branch}.{file_extension}'] *)
Definition archive_path (dest timestamp repo_name branch file_extension : string) : string :=
  dest ++ timestamp ++ "/" ++ repo_name ++ "_" ++ branch ++ "." ++ file_extension.

Fixpoint endswith_slash (s : string) : bool :=
  match s with
  | EmptyString => false
  | String c EmptyString => Ascii.eqb c "/"
  | String _ rest => endswith_slash rest
  end.

Section Script.

Context (w : World).

(** *** Primitive steps

    Every step of the run shows as one event.  A SIGINT that arrives while
    the step is under way runs [signal_handler] before the next step. *)

Definition tock (s : State) : State :=
  {| SIGNINT := SIGNINT s; tick := S (tick s); nreq := nreq s; files := files s |}.

Definition step (e : Event) : M unit :=
  fun s =>
    if w_sigint w (tick s)
    then Build_Run (Ret tt) (signal_handler (tock s)) [e; EvSignal]
    else Build_Run (Ret tt) (tock s) [e].

(** [if SIGNINT:] *)
Definition poll : M bool :=
  s <- get ;;
  step (EvPoll (SIGNINT s)) ;;;
  ret (SIGNINT s).

Definition logging (lvl : Level) (msg : LogMsg) : M unit :=
  step (EvLog lvl msg).

Definition spinner (op : SpinnerOp) : M unit :=
  step (EvSpinner op).

Definition time_sleep (secs : nat) : M unit :=
  step (EvSleep secs).

Definition datetime_now : M Z :=
  s <- get ;;
  step EvNow ;;;
  ret (w_clock w (tick s)).

Definition os_path_isdir (path : string) : M bool :=
  step (EvIsDir path) ;;;
  ret (w_isdir w path).

Definition os_makedirs (path : string) : M unit :=
  step (EvMakedirs path) ;;;
  if w_makedirs w path then ret tt else raise OSError.

Definition count_request (s : State) : State :=
  {| SIGNINT := SIGNINT s; tick := tick s; nreq := S (nreq s); files := files s |}.

Definition requests_get (url : string) (headers : gmap string string) : M Response :=
  s <- get ;;
  modify count_request ;;;
  step (EvGet url headers) ;;;
  match w_http w (nreq s) url headers with
  | GetOk r => ret r
  | GetConnectionError => raise ConnectionError
  | GetTimeout => raise Timeout
  | GetTooManyRedirects => raise TooManyRedirects
  end.

(** [r.raise_for_status()] *)
Definition raise_for_status (r : Response) : M unit :=
  if ((400 <=? status_code r)%Z && (status_code r <? 600)%Z)%bool
  then raise (HTTPError (text r))
  else ret tt.

(** [r.json()] *)
Definition response_json (r : Response) : M Json :=
  match json r with
  | Some j => ret j
  | None => raise JSONDecodeError
  end.

Definition set_file (path : string) (data : list byte) (s : State) : State :=
  {| SIGNINT := SIGNINT s; tick := tick s; nreq := nreq s;
     files := <[path := data]> (files s) |}.

(** [open(path, 'wb')]: the file is created, or emptied. *)
Definition open_wb (path : string) : M unit :=
  step (EvOpen path) ;;;
  if w_open w path then modify (set_file path []) else raise OSError.

(** [f.write(data)] on the file opened at [path]; the number of bytes
    written is returned.  The file is in binary mode: the bytes go out as
    they are. *)
Definition file_write (path : string) (data : list byte) : M nat :=
  s <- get ;;
  step (EvWrite path data) ;;;
  modify (set_file path (default [] (files s !! path) ++ data)) ;;;
  ret (length data).

(** [str(j)] *)
Definition py_str (j : Json) : string :=
  match j with
  | JStr s => s
  | _ => w_repr w j
  end.

(** *** [rate_limit_check] *)

(** [for i in range(0, wait_time_s): ...], over the values of [i] left. *)
Fixpoint wait_loop (wait_time_s : nat) (range : list nat) : M unit :=
  match range with
  | [] => ret tt
  | i :: rest =>
      spinner (SpText (wait_time_s - i)) ;;;
      flag <- poll ;;
      (if flag : bool then spinner SpStop ;;; exit 0 else ret tt) ;;;
      time_sleep 1 ;;;
      wait_loop wait_time_s rest
  end.

Definition rate_limit_check (r : Response) : M unit :=
  match resp_headers r !! "X-RateLimit-Remaining" with
  | None => ret tt
  | Some v =>
      remaining <- of_py (py_int v) ;;
      if (remaining <? RATE_LIMIT_WARNING_THRESHOLD)%Z then
        logging WARNING ApproachingRateLimit ;;;
        let wait_time_s := RATE_LIMIT_WAIT_TIME_S in
        spinner SpStart ;;;
        wait_loop wait_time_s (seq 0 wait_time_s) ;;;
        spinner SpStop
      else ret tt
  end.

(** *** [make_request] *)

Definition make_request (url : string) (headers : gmap string string) : M Response :=
  try_except
    (r <- requests_get url headers ;;
     rate_limit_check r ;;;
     raise_for_status r ;;;
     ret r)
    (fun err =>
       match err with
       | HTTPError txt => logging ERROR (FailedToConnectText txt) ;;; exit (-1)
       | ConnectionError => logging ERROR FailedToConnect ;;; exit (-1)
       | Timeout => logging ERROR RequestTimedOut ;;; exit (-1)
       | TooManyRedirects => logging ERROR TooManyRedirectsMsg ;;; exit (-1)
       | _ => raise err
       end).

(** *** [__main__] *)

Section Main.

Context (args : Args).

Definition file_extension : string :=
  if tar_gz args then "tar.gz" else "zip".

Definition dest' : string :=
  if endswith_slash (dest args) then dest args else dest args ++ "/".

Definition authenticated : bool :=
  bool_decide (is_Some (w_environ w !! "GITHUB_PERSONAL_ACCESS_TOKEN")).

Definition headers : gmap string string :=
  match w_environ w !! "GITHUB_PERSONAL_ACCESS_TOKEN" with
  | Some token => <["Authorization" := "token " ++ token]> ∅
  | None => ∅
  end.

(** The body of [for branch in branches] after the cancellation check:
    one archive is fetched and written. *)
Definition fetch_branch (timestamp : string) (repo_name branch : Json) : M nat :=
  fetching <- of_py (log_fmt "Fetching" repo_name branch) ;;
  spinner (SpFetching fetching) ;;;
  spinner SpStart ;;;
  r <- make_request
         (archive_url (user args) (py_str repo_name) (py_str branch) file_extension)
         headers ;;
  let path :=
    archive_path dest' timestamp (py_str repo_name) (py_str branch) file_extension in
  open_wb path ;;;
  bytes_written <- file_write path (content r) ;;
  saved <- of_py (log_fmt "Saved" repo_name branch) ;;
  spinner (SpSucceed saved bytes_written) ;;;
  ret bytes_written.

(** [for branch in branches: if SIGNINT: break ...]; the value is
    [bytes_total] when the loop is left. *)
Fixpoint for_branches (timestamp : string) (repo_name : Json) (branches : list Json)
    (bytes_total : nat) : M nat :=
  match branches with
  | [] => ret bytes_total
  | branch :: rest =>
      flag <- poll ;;
      if flag : bool then ret bytes_total
      else
        bytes_written <- fetch_branch timestamp repo_name branch ;;
        for_branches timestamp repo_name rest (bytes_total + bytes_written)
  end.

(** The branches of one repository. *)
Definition branches_of (repo repo_name : Json) : M (list Json) :=
  default_branch <- of_py (getitem_str repo "default_branch") ;;
  if all_branches args then
    r <- make_request (branches_url (user args) (py_str repo_name)) headers ;;
    listing <- response_json r ;;
    of_py (py_bind (py_iter listing)
             (py_mapM (fun branch => getitem_str branch "name")))
  else ret [default_branch].

(** The body of [for repo in repos]. *)
Definition backup_repo (timestamp : string) (repo : Json) (bytes_total : nat) : M nat :=
  repo_name <- of_py (getitem_str repo "name") ;;
  branches <- branches_of repo repo_name ;;
  for_branches timestamp repo_name branches bytes_total.

(** [for repo in repos: ...] *)
Fixpoint for_repos (timestamp : string) (repos : list Json) (bytes_total : nat) : M nat :=
  match repos with
  | [] => ret bytes_total
  | repo :: rest =>
      bytes_total <- backup_repo timestamp repo bytes_total ;;
      for_repos timestamp rest bytes_total
  end.

(** Lines 193 to 244: what follows the repository-list request. *)
Definition backup (repos : Json) : M unit :=
  started <- datetime_now ;;
  let timestamp := w_isoformat w started in
  let bytes_total := 0 in
  try_except
    (of_py (py_bind (getitem_int repos 0) (fun first => getitem_str first "name")) ;;;
     ret tt)
    (fun err =>
       match err with
       | KeyError => logging ERROR (InvalidResponse repos) ;;; exit (-1)
       | _ => raise err
       end) ;;;
  logging INFO (StartingBackup (user args) authenticated timestamp) ;;;
  try_except
    (os_makedirs (dest' ++ timestamp))
    (fun err =>
       match err with
       | OSError => logging ERROR (FailedToCreateDirectory dest' timestamp) ;;; exit (-1)
       | _ => raise err
       end) ;;;
  repo_list <- of_py (py_iter repos) ;;
  bytes_total <- for_repos timestamp repo_list bytes_total ;;
  completed <- datetime_now ;;
  now <- datetime_now ;;
  logging INFO (BackupCompleted (w_isoformat w completed) bytes_total dest' (now - started)) ;;;
  spinner SpStop.

Definition main : M unit :=
  isdir <- os_path_isdir (dest args) ;;
  (if isdir : bool then ret tt else logging ERROR InvalidDestination ;;; exit (-1)) ;;;
  r <- make_request (search_url (user args)) headers ;;
  body <- response_json r ;;
  repos <- of_py (getitem_str body "items") ;;
  backup repos.

End Main.

End Script.

(** ** Observations on runs *)

Local Open Scope list_scope.

Definition wp {A} (m : M A) (Q : Outcome A -> State -> list Event -> Prop)
    (s : State) : Prop :=
  Q (outcome (m s)) (final (m s)) (events (m s)).

(** What [bind] hands to the rest of the computation. *)
Definition after {A B} (k : A -> State -> Prop)
    (Q : Outcome B -> State -> list Event -> Prop)
    (t : list Event) (o : Outcome A) (s : State) : Prop :=
  match o with
  | Ret a => k a s
  | Exit c => Q (Exit c) s t
  | Raise e => Q (Raise e) s t
  end.

(** The state after a step in which a signal did, or did not, arrive. *)
Definition stepped (sig : bool) (s : State) : State :=
  if sig then signal_handler (tock s) else tock s.

Definition signalled (sig : bool) : list Event :=
  if sig then [EvSignal] else [].

Definition is_get (e : Event) : bool :=
  match e with EvGet _ _ => true | _ => false end.

Definition is_file_write (e : Event) : bool :=
  match e with EvOpen _ | EvWrite _ _ => true | _ => false end.

Definition is_makedirs (e : Event) : bool :=
  match e with EvMakedirs _ => true | _ => false end.

Definition is_sleep (e : Event) : bool :=
  match e with EvSleep _ => true | _ => false end.

Definition is_poll (e : Event) : bool :=
  match e with EvPoll _ => true | _ => false end.

(** The final report of line 241. *)
Definition is_report (e : Event) : bool :=
  match e with EvLog _ (BackupCompleted _ _ _ _) => true | _ => false end.

Definition is_invalid_response (e : Event) : bool :=
  match e with EvLog _ (InvalidResponse _) => true | _ => false end.

(** Seconds slept in a list of events. *)
Fixpoint slept (t : list Event) : nat :=
  match t with
  | [] => 0
  | EvSleep n :: rest => n + slept rest
  | _ :: rest => slept rest
  end.

(** The values the flag had at its checks. *)
Fixpoint polls (t : list Event) : list bool :=
  match t with
  | [] => []
  | EvPoll b :: rest => b :: polls rest
  | _ :: rest => polls rest
  end.

(** The URLs requested. *)
Fixpoint gets (t : list Event) : list string :=
  match t with
  | [] => []
  | EvGet url _ :: rest => url :: gets rest
  | _ :: rest => gets rest
  end.

(** The files opened for writing. *)
Fixpoint opens (t : list Event) : list string :=
  match t with
  | [] => []
  | EvOpen path :: rest => path :: opens rest
  | _ :: rest => opens rest
  end.

(** The write calls. *)
Fixpoint writes (t : list Event) : list (string * list byte) :=
  match t with
  | [] => []
  | EvWrite path data :: rest => (path, data) :: writes rest
  | _ :: rest => writes rest
  end.

(** What follows the first arrival of the signal. *)
Fixpoint after_signal (t : list Event) : list Event :=
  match t with
  | [] => []
  | EvSignal :: rest => rest
  | _ :: rest => after_signal rest
  end.

(** The checks of the flag and the sleeps, in order. *)
Fixpoint beats (t : list Event) : list Event :=
  match t with
  | [] => []
  | EvPoll b :: rest => EvPoll b :: beats rest
  | EvSleep n :: rest => EvSleep n :: beats rest
  | _ :: rest => beats rest
  end.

(** [k] rounds of the backoff wait: the flag is read unset, then one
    second passes. *)
Fixpoint rounds (k : nat) : list Event :=
  match k with
  | O => []
  | S k' => EvPoll false :: EvSleep 1 :: rounds k'
  end.

(** The events of a request after the GET itself: the backoff wait and the
    error line. *)
Definition quiet (e : Event) : bool :=
  match e with
  | EvSignal | EvPoll _ | EvSleep _ | EvSpinner _ => true
  | EvLog _ msg =>
      match msg with
      | ApproachingRateLimit | FailedToConnectText _ | FailedToConnect
      | RequestTimedOut | TooManyRedirectsMsg => true
      | _ => false
      end
  | _ => false
  end.

(** The events of an archive download. *)
Definition fetch_event (e : Event) : bool :=
  quiet e || is_get e || is_file_write e.

(** Bytes handed to [f.write] in a list of events. *)
Fixpoint written (t : list Event) : nat :=
  match t with
  | [] => 0
  | EvWrite _ data :: rest => length data + written rest
  | _ :: rest => written rest
  end.

(** The flag was found set at one of its checks. *)
Definition cancelled (t : list Event) : bool :=
  existsb (fun b => b) (polls t).

(** The download tasks of one repository: what the loop body requests and
    which files it opens when no check finds the flag set. *)
Definition tasks_of (w : World) (args : Args) (timestamp : string) (repo : Json)
    (s : State) (t : list Event) : Prop :=
  if all_branches args then
    exists repo_name r listing items names,
      getitem_str repo "name" = inr repo_name
      /\ w_http w (nreq s) (branches_url (user args) (py_str w repo_name)) (headers w)
         = GetOk r
      /\ json r = Some listing
      /\ py_iter listing = inr items
      /\ py_mapM (fun branch => getitem_str branch "name") items = inr (map JStr names)
      /\ gets t =
         branches_url (user args) (py_str w repo_name)
         :: map (fun b => archive_url (user args) (py_str w repo_name) b
                            (file_extension args)) names
      /\ opens t =
         map (fun b => archive_path (dest' args) timestamp (py_str w repo_name) b
                         (file_extension args)) names
  else
    exists rn b,
      getitem_str repo "name" = inr (JStr rn)
      /\ getitem_str repo "default_branch" = inr (JStr b)
      /\ gets t = [archive_url (user args) rn b (file_extension args)]
      /\ opens t = [archive_path (dest' args) timestamp rn b (file_extension args)].

(** A request for the list of branches of some repository. *)
Definition is_branches_url (args : Args) (url : string) : Prop :=
  exists repo_name, url = branches_url (user args) repo_name.

(** Every value in the list is [true]. *)
Definition all_set (l : list bool) : bool :=
  forallb (fun b => b) l.

(** No [false] comes after a [true]. *)
Fixpoint nondecreasing (l : list bool) : bool :=
  match l with
  | [] => true
  | b :: rest => (negb b || all_set rest) && nondecreasing rest
  end.

(** How a computation treats the flag: it never unsets it, the checks of
    the flag read what the flag holds, and [exit(0)] is only reached from a
    check that found it set. *)
Definition well_behaved {A} (m : M A) : Prop :=
  forall s,
    (SIGNINT s = true ->
     SIGNINT (final (m s)) = true /\ all_set (polls (events (m s))) = true)
    /\ (cancelled (events (m s)) = true -> SIGNINT (final (m s)) = true)
    /\ nondecreasing (polls (events (m s))) = true
    /\ match outcome (m s) with
       | Exit c => c = (-1)%Z \/ (c = 0%Z /\ cancelled (events (m s)) = true)
       | _ => True
       end.

(** The events of the session: its timestamp is read off the clock, its
    directory is created, a file is opened or written. *)
Definition is_session (e : Event) : bool :=
  match e with
  | EvNow | EvMakedirs _ | EvOpen _ | EvWrite _ _ => true
  | _ => false
  end.

(** The ordering the state machine of the design names: before the first
    request goes out the timestamp has been read and the session directory
    has been created. *)
Fixpoint init_before_enumerate_from (seen_now seen_makedirs : bool)
    (t : list Event) : bool :=
  match t with
  | [] => true
  | EvGet _ _ :: _ => seen_now && seen_makedirs
  | EvNow :: rest => init_before_enumerate_from true seen_makedirs rest
  | EvMakedirs _ :: rest => init_before_enumerate_from seen_now true rest
  | _ :: rest => init_before_enumerate_from seen_now seen_makedirs rest
  end.

Definition init_before_enumerate (t : list Event) : bool :=
  init_before_enumerate_from false false t.

(** What follows the first check that found the flag set. *)
Fixpoint after_cancellation (t : list Event) : list Event :=
  match t with
  | [] => []
  | EvPoll true :: rest => rest
  | _ :: rest => after_cancellation rest
  end.


(** ** Sample runs *)

Module Sample.

Definition response (headers : gmap string string) (body : list byte)
    (j : option Json) : Response :=
  {| status_code := 200; resp_headers := headers; content := body;
     text := ""; json := j |}.

Definition repo (name default_branch : string) : Json :=
  JObj [("name", JStr name); ("default_branch", JStr default_branch)].

Definition search_result (repos : list Json) : Json :=
  JObj [("total_count", JNum (Z.of_nat (length repos))); ("items", JArr repos)].

Definition branch (name : string) : Json :=
  JObj [("name", JStr name)].

Definition archive : list byte := [x50; x4b; x03; x04].


(** Scenario A: one repository, [Hello-World], default branch [master]. *)
Definition hello_http (n : nat) (url : string) (h : gmap string string) : GetResult :=
  if String.eqb url (search_url "octocat")
  then GetOk (response ∅ [] (Some (search_result [repo "Hello-World" "master"])))
  else GetOk (response ∅ archive None).

Definition hello : World :=
  {| w_isdir := fun _ => true;
     w_environ := ∅;
     w_http := hello_http;
     w_clock := fun n => Z.of_nat n;
     w_isoformat := fun _ => "2024-05-01T10:00:00.000000";
     w_makedirs := fun _ => true;
     w_open := fun _ => true;
     w_sigint := fun _ => false;
     w_repr := fun _ => "" |}.

Definition hello_args : Args :=
  {| user := "octocat"; dest := "/backup"; all_branches := false; tar_gz := false |}.

(** Scenario B: the destination is not a directory. *)
Definition no_dest : World :=
  {| w_isdir := fun _ => false;
     w_environ := w_environ hello;
     w_http := w_http hello;
     w_clock := w_clock hello;
     w_isoformat := w_isoformat hello;
     w_makedirs := w_makedirs hello;
     w_open := w_open hello;
     w_sigint := w_sigint hello;
     w_repr := w_repr hello |}.



(** Two repositories of two branches each, all branches asked for; the
    signal arrives while the first archive is downloaded. *)
Definition two_http (n : nat) (url : string) (h : gmap string string) : GetResult :=
  if String.eqb url (search_url "octocat")
  then GetOk (response ∅ [] (Some (search_result [repo "one" "main"; repo "two" "main"])))
  else if String.eqb url (branches_url "octocat" "one")
  then GetOk (response ∅ [] (Some (JArr [branch "main"; branch "dev"])))
  else if String.eqb url (branches_url "octocat" "two")
  then GetOk (response ∅ [] (Some (JArr [branch "main"; branch "dev"])))
  else GetOk (response ∅ archive None).

Definition two_args : Args :=
  {| user := "octocat"; dest := "/backup/"; all_branches := true; tar_gz := true |}.

Definition interrupted (at_step : nat) : World :=
  {| w_isdir := w_isdir hello;
     w_environ := w_environ hello;
     w_http := two_http;
     w_clock := w_clock hello;
     w_isoformat := w_isoformat hello;
     w_makedirs := w_makedirs hello;
     w_open := w_open hello;
     w_sigint := fun n => Nat.eqb n at_step;
     w_repr := w_repr hello |}.



End Sample.

(** ** Further observations *)

(** The error line of [make_request] for a request that got no answer. *)
Definition failure_message (g : GetResult) : option LogMsg :=
  match g with
  | GetOk _ => None
  | GetConnectionError => Some FailedToConnect
  | GetTimeout => Some RequestTimedOut
  | GetTooManyRedirects => Some TooManyRedirectsMsg
  end.

(** The events of a computation satisfy [T], from any state. *)
Definition traces {A} (T : list Event -> Prop) (m : M A) : Prop :=
  forall s, T (events (m s)).

(** A property of lists of events that holds of no event and of two lists
    put end to end. *)
Definition additive (T : list Event -> Prop) : Prop :=
  T [] /\ forall t1 t2, T t1 -> T t2 -> T (t1 ++ t2).

(** At most ten seconds of sleep for each request sent. *)
Definition within_budget (t : list Event) : Prop :=
  slept t <= RATE_LIMIT_WAIT_TIME_S * length (gets t).

(** The three kinds of URL the script asks for. *)
Definition known_url (args : Args) (url : string) : Prop :=
  url = search_url (user args)
  \/ (exists repo_name, url = branches_url (user args) repo_name)
  \/ (exists repo_name branch,
         url = archive_url (user args) repo_name branch (file_extension args)).

(** What a run of the script keeps to, for the session of timestamp
    [timestamp]: the requests it sends, the length of its sleeps, the
    directory it creates and the files it opens. *)
Definition disciplined (w : World) (args : Args) (timestamp : string) (e : Event) : Prop :=
  match e with
  | EvGet url h => h = headers w /\ known_url args url
  | EvSleep secs => secs = 1
  | EvMakedirs path => path = (dest' args ++ timestamp)%string
  | EvOpen path | EvWrite path _ =>
      exists rest, path = ((dest' args ++ timestamp) ++ "/" ++ rest)%string
  | EvIsDir path => path = dest args
  | _ => True
  end.


(** The error line of a failed [os.makedirs] was logged. *)
Definition makedirs_failed (t : list Event) : bool :=
  existsb (fun e => match e with
                    | EvLog ERROR (FailedToCreateDirectory _ _) => true
                    | _ => false
                    end) t.


(** *** [sizeof_fmt], on byte counts

    Both calls of [sizeof_fmt] pass a count of bytes.  For a count below
    [2^53] nothing is rounded on the way: the count is a float as it is
    and a division by [1024.0] only moves the exponent, so at each turn of
    the loop [num] is the fraction [num / den] with [den] a power of 1024.
    Only the format [.1f] rounds, to the nearest tenth of that exact
    value, a tie going to the even digit. *)

Definition units : list string :=
  ["" ; "Ki" ; "Mi" ; "Gi" ; "Ti" ; "Pi" ; "Ei" ; "Zi"]%string.

Definition decimal (n : N) : string :=
  NilZero.string_of_uint (N.to_uint n).

(** [a / b] rounded to the nearest integer, ties to even. *)
Definition round_half_even (a b : N) : N :=
  let q := (a / b)%N in
  let r := (a mod b)%N in
  if (2 * r <? b)%N then q
  else if (b <? 2 * r)%N then (q + 1)%N
  else if N.even q then q else (q + 1)%N.

(** The tenths of [num / den] that [.1f] shows. *)
Definition tenths (num den : N) : N :=
  round_half_even (10 * num) den.

(** [f"{num:3.1f}"]; the field of 3 is always filled. *)
Definition format_1f (num den : N) : string :=
  (decimal (tenths num den / 10) ++ "." ++ decimal (tenths num den mod 10))%string.

(** [for unit in (...)], over the units left. *)
Fixpoint sizeof_fmt_from (us : list string) (num den : N) (suffix : string) : string :=
  match us with
  | [] => (format_1f num den ++ "Yi" ++ suffix)%string
  | unit :: rest =>
      if (num <? 1024 * den)%N
      then (format_1f num den ++ unit ++ suffix)%string
      else sizeof_fmt_from rest num (1024 * den) suffix
  end.

Definition sizeof_fmt (num : N) (suffix : string) : string :=
  sizeof_fmt_from units num 1 suffix.

(** ** Reasoning about runs

    [wp m Q s]: the run of [m] from [s] ends in an outcome, a state and a
    list of events that satisfy [Q]. *)

Lemma wp_ret {A} (a : A) Q s : Q (Ret a) s [] -> wp (ret a) Q s.
Proof. exact id. Qed.

Lemma wp_exit {A} c (Q : Outcome A -> _) s : Q (Exit c) s [] -> wp (exit c) Q s.
Proof. exact id. Qed.

Lemma wp_raise {A} e (Q : Outcome A -> _) s : Q (Raise e) s [] -> wp (raise e) Q s.
Proof. exact id. Qed.

Lemma wp_get Q s : Q (Ret s) s [] -> wp get Q s.
Proof. exact id. Qed.

Lemma wp_modify f Q s : Q (Ret tt) (f s) [] -> wp (modify f) Q s.
Proof. exact id. Qed.

Lemma wp_of_py {A} (x : Py A) Q s :
  match x with
  | inl e => Q (Raise e) s []
  | inr a => Q (Ret a) s []
  end ->
  wp (of_py x) Q s.
Proof. destruct x; exact id. Qed.

Lemma wp_bind {A B} (m : M A) (f : A -> M B) Q s :
  wp m (fun o s1 t1 =>
          after (fun a => wp (f a) (fun o2 s2 t2 => Q o2 s2 (t1 ++ t2))) Q t1 o s1) s ->
  wp (bind m f) Q s.
Proof.
  unfold wp, bind, after. destruct (outcome (m s)); exact id.
Qed.

Lemma wp_try {A} (m : M A) (h : PyExc -> M A) Q s :
  wp m (fun o s1 t1 =>
          match o with
          | Raise e => wp (h e) (fun o2 s2 t2 => Q o2 s2 (t1 ++ t2)) s1
          | _ => Q o s1 t1
          end) s ->
  wp (try_except m h) Q s.
Proof.
  unfold wp, try_except. destruct (outcome (m s)) eqn:E; try exact id.
  all: intros H; destruct (m s); simpl in *; subst; exact H.
Qed.

Lemma wp_mono {A} (m : M A) (Q Q' : Outcome A -> State -> list Event -> Prop) s :
  wp m Q s -> (forall o s' t, Q o s' t -> Q' o s' t) -> wp m Q' s.
Proof. unfold wp. auto. Qed.

Lemma wp_conj {A} (m : M A) (Q Q' : Outcome A -> State -> list Event -> Prop) s :
  wp m Q s -> wp m Q' s -> wp m (fun o s' t => Q o s' t /\ Q' o s' t) s.
Proof. unfold wp. auto. Qed.

Lemma wp_step w e Q s :
  (forall sig, sig = w_sigint w (tick s) ->
               Q (Ret tt) (stepped sig s) (e :: signalled sig)) ->
  wp (step w e) Q s.
Proof.
  intros H. unfold wp, step. specialize (H _ eq_refl).
  destruct (w_sigint w (tick s)); exact H.
Qed.

Lemma SIGNINT_stepped sig s : SIGNINT (stepped sig s) = SIGNINT s || sig.
Proof. destruct sig; simpl; [now rewrite orb_true_r | now rewrite orb_false_r]. Qed.

Lemma files_stepped sig s : files (stepped sig s) = files s.
Proof. now destruct sig. Qed.

Lemma nreq_stepped sig s : nreq (stepped sig s) = nreq s.
Proof. now destruct sig. Qed.

Lemma tick_stepped sig s : tick (stepped sig s) = S (tick s).
Proof. now destruct sig. Qed.

Lemma files_set_file path data s : files (set_file path data s) = <[path := data]> (files s).
Proof. reflexivity. Qed.

Lemma SIGNINT_set_file path data s : SIGNINT (set_file path data s) = SIGNINT s.
Proof. reflexivity. Qed.

Lemma nreq_set_file path data s : nreq (set_file path data s) = nreq s.
Proof. reflexivity. Qed.

Lemma files_count_request s : files (count_request s) = files s.
Proof. reflexivity. Qed.

Lemma SIGNINT_count_request s : SIGNINT (count_request s) = SIGNINT s.
Proof. reflexivity. Qed.

Create Rewrite HintDb state.
#[local] Hint Rewrite SIGNINT_stepped files_stepped nreq_stepped tick_stepped
  files_set_file SIGNINT_set_file nreq_set_file files_count_request
  SIGNINT_count_request : state.

(** *** Kinds of events *)

Lemma slept_app t1 t2 : slept (t1 ++ t2) = slept t1 + slept t2.
Proof. induction t1 as [|[] t1 IH]; simpl; lia. Qed.

Lemma polls_app t1 t2 : polls (t1 ++ t2) = polls t1 ++ polls t2.
Proof. induction t1 as [|[] t1 IH]; simpl; congruence. Qed.

Lemma gets_app t1 t2 : gets (t1 ++ t2) = gets t1 ++ gets t2.
Proof. induction t1 as [|[] t1 IH]; simpl; congruence. Qed.

Lemma opens_app t1 t2 : opens (t1 ++ t2) = opens t1 ++ opens t2.
Proof. induction t1 as [|[] t1 IH]; simpl; congruence. Qed.

Lemma writes_app t1 t2 : writes (t1 ++ t2) = writes t1 ++ writes t2.
Proof. induction t1 as [|[] t1 IH]; simpl; congruence. Qed.

Lemma slept_signalled sig : slept (signalled sig) = 0.
Proof. now destruct sig. Qed.

Lemma polls_signalled sig : polls (signalled sig) = [].
Proof. now destruct sig. Qed.

Lemma gets_signalled sig : gets (signalled sig) = [].
Proof. now destruct sig. Qed.

Lemma opens_signalled sig : opens (signalled sig) = [].
Proof. now destruct sig. Qed.

Lemma writes_signalled sig : writes (signalled sig) = [].
Proof. now destruct sig. Qed.

Lemma beats_app t1 t2 : beats (t1 ++ t2) = beats t1 ++ beats t2.
Proof. induction t1 as [|[] t1 IH]; simpl; congruence. Qed.

Lemma beats_signalled sig : beats (signalled sig) = [].
Proof. now destruct sig. Qed.

Lemma slept_rounds k : slept (rounds k) = k.
Proof. induction k; simpl; congruence. Qed.

Lemma slept_beats t : slept (beats t) = slept t.
Proof. induction t as [|[] t IH]; simpl; congruence. Qed.

Lemma slept_after_signal t : slept (after_signal t) <= slept t.
Proof. induction t as [|[] t IH]; simpl; lia. Qed.


Lemma quiet_signalled sig : forallb quiet (signalled sig) = true.
Proof. now destruct sig. Qed.

Lemma quiet_gets t : forallb quiet t = true -> gets t = [].
Proof.
  induction t as [|e t IH]; simpl; [reflexivity|].
  intros [He Ht]%andb_prop. destruct e; try discriminate; auto.
Qed.

Lemma quiet_opens t : forallb quiet t = true -> opens t = [].
Proof.
  induction t as [|e t IH]; simpl; [reflexivity|].
  intros [He Ht]%andb_prop. destruct e; try discriminate; auto.
Qed.

Lemma quiet_writes t : forallb quiet t = true -> writes t = [].
Proof.
  induction t as [|e t IH]; simpl; [reflexivity|].
  intros [He Ht]%andb_prop. destruct e; try discriminate; auto.
Qed.

Lemma quiet_no P t :
  (forall e, quiet e = true -> P e = false) ->
  forallb quiet t = true -> existsb P t = false.
Proof.
  intros HP. induction t as [|e t IH]; simpl; [reflexivity|].
  intros [He Ht]%andb_prop. now rewrite (HP e He), IH.
Qed.

Create Rewrite HintDb trace.
#[local] Hint Rewrite app_nil_r slept_app polls_app gets_app opens_app writes_app beats_app
  slept_signalled polls_signalled gets_signalled opens_signalled writes_signalled
  beats_signalled forallb_app quiet_signalled existsb_app : trace.

Ltac trace_simpl := repeat (progress (simpl; autorewrite with trace)).

Ltac wp_go :=
  repeat (cbv beta iota delta [after];
          lazymatch goal with
          | |- wp (bind _ _) _ _ => apply wp_bind
          | |- wp (step _ _) _ _ => apply wp_step; intros ? _
          | |- wp get _ _ => apply wp_get
          | |- wp (ret _) _ _ => apply wp_ret
          | |- wp (exit _) _ _ => apply wp_exit
          | |- wp (raise _) _ _ => apply wp_raise
          | |- wp (modify _) _ _ => apply wp_modify
          | |- wp (of_py _) _ _ => apply wp_of_py
          end).

Section Backoff.

Context (w : World).

(** The backoff loop, for the values of [i] still to come: either every
    round is completed, or the loop exits the program at the first check
    that finds the flag set. Once the signal has arrived at most one more
    second is slept. *)
Lemma wait_loop_spec wait_time_s range s :
  wp (wait_loop w wait_time_s range)
     (fun o s' t =>
        match o with
        | Ret _ => beats t = rounds (length range)
        | Exit c => c = 0%Z /\
                    exists k, k < length range /\ beats t = rounds k ++ [EvPoll true]
        | Raise _ => False
        end
        /\ (SIGNINT s = true -> slept t = 0 /\ (range <> [] -> o = Exit 0%Z))
        /\ slept (after_signal t) <= 1
        /\ (SIGNINT s = true -> SIGNINT s' = true)
        /\ files s' = files s /\ nreq s' = nreq s) s.
Proof.
  revert s. induction range as [|i rest IH]; intros s.
  - simpl. wp_go. repeat split; auto. congruence.
  - simpl. unfold spinner, poll, time_sleep. wp_go.
    rewrite SIGNINT_stepped.
    destruct (SIGNINT s || sig) eqn:Eflag.
    + (* the check finds the flag set *)
      wp_go. rewrite !files_stepped, !nreq_stepped, !SIGNINT_stepped.
      repeat split; auto.
      * exists 0. split; [simpl; lia|]. now trace_simpl.
      * now trace_simpl.
      * etransitivity; [apply slept_after_signal|]. trace_simpl. lia.
      * intros ->. reflexivity.
    + (* the flag is unset: one second of sleep, then the later rounds *)
      apply orb_false_elim in Eflag as [Es ->].
      wp_go.
      eapply wp_mono; [apply IH|].
      intros o s' t (Hshape & Hset & Hafter & Hmono & Hfiles & Hnreq).
      rewrite !SIGNINT_stepped, !files_stepped, !nreq_stepped in *.
      rewrite Es in *. simpl in Hset, Hmono.
      repeat split; auto; try congruence.
      * destruct o as [[]|c|e]; [| |exact Hshape].
        -- trace_simpl. now rewrite Hshape.
        -- destruct Hshape as (-> & k & Hk & Hb). split; [reflexivity|].
           exists (S k). split; [simpl; lia|].
           trace_simpl. now rewrite Hb.
      * destruct sig0, sig; trace_simpl; try exact Hafter;
          destruct Hset as [H0 _]; try reflexivity; lia.
Qed.

End Backoff.

Lemma py_int_raises v e : py_int v = inl e -> e = ValueError.
Proof.
  unfold py_int. intros H.
  match type of H with
  | context [match ?b with Some _ => _ | None => _ end] => destruct b
  end; congruence.
Qed.

Section Requests.

Context (w : World).

Lemma wait_loop_quiet wait_time_s range s :
  wp (wait_loop w wait_time_s range) (fun _ _ t => forallb quiet t = true) s.
Proof.
  revert s. induction range as [|i rest IH]; intros s; simpl.
  - now wp_go.
  - unfold spinner, poll, time_sleep. wp_go.
    destruct (SIGNINT _); wp_go; [now trace_simpl|].
    eapply wp_mono; [apply IH|]. intros o s' t Ht. trace_simpl. now rewrite Ht.
Qed.

(** [rate_limit_check], whatever the response: it only polls, sleeps, logs
    and drives the spinner; it leaves by [exit(0)] at a check that found the
    flag set, or with the [ValueError] of [int]. *)
Lemma rate_limit_check_spec r s :
  wp (rate_limit_check w r)
     (fun o s' t =>
        forallb quiet t = true
        /\ files s' = files s /\ nreq s' = nreq s
        /\ (SIGNINT s = true -> SIGNINT s' = true)
        /\ match o with
           | Ret _ => True
           | Exit c => c = 0%Z /\ exists k, beats t = rounds k ++ [EvPoll true]
           | Raise e => e = ValueError
           end) s.
Proof.
  unfold rate_limit_check.
  destruct (resp_headers r !! "X-RateLimit-Remaining") as [v|]; [|now wp_go].
  wp_go. destruct (py_int v) as [e|n] eqn:Hint;
    [repeat split; auto; eapply py_int_raises, Hint|].
  destruct (n <? RATE_LIMIT_WARNING_THRESHOLD)%Z; [|now wp_go].
  unfold logging, spinner. wp_go.
  eapply wp_mono; [apply wp_conj; [apply wait_loop_spec|apply wait_loop_quiet]|].
  intros o s' t [(Hshape & _ & _ & Hmono & Hfiles & Hnreq) Hq].
  rewrite !SIGNINT_stepped, !files_stepped, !nreq_stepped in *.
  destruct o as [[]|c|e]; [| |contradiction].
  - wp_go. rewrite !SIGNINT_stepped, !files_stepped, !nreq_stepped.
    trace_simpl. rewrite Hq. repeat split; auto.
    intros Hs. rewrite Hmono; [reflexivity|now rewrite Hs].
  - unfold after. destruct Hshape as (-> & k & _ & Hb).
    trace_simpl. rewrite Hq, Hb. repeat split; auto.
    + intros Hs. apply Hmono. now rewrite Hs.
    + now exists k.
Qed.

(** [make_request]: one GET, then the events of the backoff wait and of
    the error line; no file is touched.  It returns the response, or leaves
    by [exit(0)] from the wait, by [exit(-1)], or with [ValueError]. *)
Lemma make_request_spec url h s :
  wp (make_request w url h)
     (fun o s' t =>
        (exists t', t = EvGet url h :: t' /\ forallb quiet t' = true)
        /\ files s' = files s /\ nreq s' = S (nreq s)
        /\ (SIGNINT s = true -> SIGNINT s' = true)
        /\ match o with
           | Ret r => w_http w (nreq s) url h = GetOk r
                      /\ ((400 <=? status_code r)%Z && (status_code r <? 600)%Z = false)
           | Exit c => (c = 0%Z /\ exists k, beats t = rounds k ++ [EvPoll true])
                       \/ c = (-1)%Z
           | Raise e => e = ValueError
           end) s.
Proof.
  unfold make_request, requests_get, logging. apply wp_try. wp_go.
  assert (Hmono : forall b, SIGNINT s = true -> SIGNINT s || b = true) by (now intros b ->).
  destruct (w_http w (nreq s) url h) as [r| | |] eqn:Hhttp; wp_go;
    rewrite ?SIGNINT_stepped, ?files_stepped, ?nreq_stepped; simpl;
    try (split; [eexists; split; [reflexivity|now trace_simpl]|];
         repeat split; auto using orb_true_iff).
  - eapply wp_mono; [apply rate_limit_check_spec|].
    intros o s' t (Hq & Hfiles & Hnreq & Hm & Ho).
    rewrite !SIGNINT_stepped, !files_stepped, !nreq_stepped in *. simpl in *.
    destruct o as [[]|c|e]; unfold after.
    + unfold raise_for_status.
      destruct (_ && _) eqn:Hstatus; wp_go;
        rewrite ?SIGNINT_stepped, ?files_stepped, ?nreq_stepped; simpl;
        (split; [eexists; split; [reflexivity|trace_simpl; now rewrite Hq]|]);
        repeat split; auto.
      intros Hs. rewrite Hm; [reflexivity|now rewrite Hs].
    + destruct Ho as (-> & k & Hk).
      split; [eexists; split; [reflexivity|trace_simpl; now rewrite Hq]|].
      repeat split; auto. left. split; [reflexivity|].
      exists k. trace_simpl. exact Hk.
    + subst e. wp_go.
      split; [eexists; split; [reflexivity|trace_simpl; now rewrite Hq]|].
      repeat split; auto.
  - now intros ->.
  - now intros ->.
  - now intros ->.
Qed.


End Requests.

(** ** The backoff wait *)



(** ** The fetch loop *)

Lemma written_app t1 t2 : written (t1 ++ t2) = written t1 + written t2.
Proof. induction t1 as [|[] t1 IH]; simpl; lia. Qed.

Lemma written_signalled sig : written (signalled sig) = 0.
Proof. now destruct sig. Qed.

Lemma cancelled_app t1 t2 : cancelled (t1 ++ t2) = cancelled t1 || cancelled t2.
Proof. unfold cancelled. now rewrite polls_app, existsb_app. Qed.

Lemma cancelled_signalled sig : cancelled (signalled sig) = false.
Proof. now destruct sig. Qed.

Lemma fetch_event_signalled sig : forallb fetch_event (signalled sig) = true.
Proof. now destruct sig. Qed.

Lemma quiet_fetch_event t : forallb quiet t = true -> forallb fetch_event t = true.
Proof.
  induction t as [|e t IH]; simpl; [reflexivity|].
  intros [He Ht]%andb_prop. unfold fetch_event at 1. now rewrite He, IH.
Qed.

Lemma quiet_written t : forallb quiet t = true -> written t = 0.
Proof.
  induction t as [|e t IH]; simpl; [reflexivity|].
  intros [He Ht]%andb_prop. destruct e; try discriminate; auto.
Qed.

#[local] Hint Rewrite written_app written_signalled cancelled_app cancelled_signalled
  fetch_event_signalled : trace.

Lemma log_fmt_str message name branch x :
  log_fmt message name branch = inr x ->
  exists rn b, name = JStr rn /\ branch = JStr b.
Proof.
  unfold log_fmt. destruct name; try discriminate.
  destruct branch; try discriminate. eauto.
Qed.

Lemma log_fmt_total message rn b :
  exists x, log_fmt message (JStr rn) (JStr b) = inr x.
Proof. eexists. reflexivity. Qed.

Section Loop.

Context (w : World) (args : Args).

(** One archive download.  When it returns, the response to the archive
    request has been written, whole, to the file of the branch; when it
    does not return, no byte was written. *)
Lemma fetch_branch_spec timestamp repo_name branch s :
  wp (fetch_branch w args timestamp repo_name branch)
     (fun o s' t =>
        forallb fetch_event t = true
        /\ (SIGNINT s = true -> SIGNINT s' = true)
        /\ match o with
           | Ret n =>
               exists rn b r,
                 let url := archive_url (user args) rn b (file_extension args) in
                 let path :=
                   archive_path (dest' args) timestamp rn b (file_extension args) in
                 repo_name = JStr rn /\ branch = JStr b
                 /\ w_http w (nreq s) url (headers w) = GetOk r
                 /\ n = length (content r)
                 /\ gets t = [url] /\ opens t = [path]
                 /\ writes t = [(path, content r)]
                 /\ written t = n
                 /\ files s' = <[path := content r]> (files s)
           | _ => writes t = [] /\ files s' = files s
           end) s.
Proof.
  unfold fetch_branch, spinner. wp_go.
  destruct (log_fmt "Fetching" repo_name branch) as [e|fetching] eqn:Hfmt;
    [now repeat split|].
  destruct (log_fmt_str _ _ _ _ Hfmt) as (rn & b & -> & ->).
  wp_go. eapply wp_mono; [apply make_request_spec|].
  intros o s' t ((t' & -> & Hq) & Hfiles & Hnreq & Hm & Ho).
  rewrite !SIGNINT_stepped, !files_stepped, !nreq_stepped in *.
  pose proof (quiet_fetch_event _ Hq) as Hf.
  pose proof (quiet_gets _ Hq) as Hg.
  pose proof (quiet_opens _ Hq) as Hop.
  pose proof (quiet_writes _ Hq) as Hw.
  pose proof (quiet_written _ Hq) as Hwn.
  assert (Hm' : SIGNINT s = true -> SIGNINT s' = true)
    by (intros Hs; apply Hm; now rewrite Hs).
  destruct o as [r|c|e]; unfold after;
    [|trace_simpl; rewrite Hf, Hw; now repeat split..].
  simpl py_str in *. destruct Ho as [Ho _].
  unfold open_wb, file_write. wp_go.
  destruct (w_open w _) eqn:Hopen; wp_go.
  2:{ rewrite !files_stepped; trace_simpl; rewrite Hf, Hw.
      repeat split; auto. rewrite SIGNINT_stepped. intros Hs. now rewrite Hm'. }
  unfold log_fmt, format_s, bracket, py_bind. wp_go.
  autorewrite with state.
  rewrite lookup_insert_eq, insert_insert_eq, Hfiles.
  trace_simpl. rewrite Hf, Hg, Hop, Hw, Hwn.
  split; [reflexivity|]. split; [intros Hs; now rewrite Hm'|].
  exists rn, b, r. simpl. repeat split; auto.
Qed.

(** The loop over the branches of one repository.  With the flag set on
    entry nothing is fetched.  When the loop is left without a check having
    found the flag set, one archive per branch was requested and written,
    in order.  Files are touched only where they were opened. *)
Lemma for_branches_spec timestamp repo_name branches bytes_total s :
  wp (for_branches w args timestamp repo_name branches bytes_total)
     (fun o s' t =>
        forallb fetch_event t = true
        /\ (SIGNINT s = true -> SIGNINT s' = true)
        /\ (SIGNINT s = true ->
            gets t = [] /\ opens t = [] /\ writes t = [] /\ o = Ret bytes_total)
        /\ (forall p, ~ In p (opens t) -> files s' !! p = files s !! p)
        /\ match o with
           | Ret total =>
               total = bytes_total + written t
               /\ (cancelled t = true \/
                   exists rn names,
                     (branches <> [] -> repo_name = JStr rn)
                     /\ branches = map JStr names
                     /\ gets t = map (fun b => archive_url (user args) rn b
                                                (file_extension args)) names
                     /\ opens t = map (fun b => archive_path (dest' args) timestamp rn b
                                                 (file_extension args)) names)
           | _ => True
           end) s.
Proof.
  revert bytes_total s.
  induction branches as [|branch rest IH]; intros bytes_total s; simpl.
  - wp_go. repeat split; auto. right. exists "", []. now repeat split.
  - unfold poll. wp_go. autorewrite with state.
    destruct (SIGNINT s) eqn:Hs.
    + wp_go. trace_simpl. autorewrite with state. repeat split; auto.
      intros _. now rewrite Hs.
    + wp_go. eapply wp_mono; [apply fetch_branch_spec|].
      intros o s1 t1 (Hf1 & Hm1 & Ho1). autorewrite with state in *.
      destruct o as [n|c|e]; unfold after.
      2,3: destruct Ho1 as [Hw1 Hfiles1]; trace_simpl; rewrite Hf1;
           repeat split; auto; try discriminate;
           intros p _; now rewrite Hfiles1.
      destruct Ho1 as (rn & b & r & -> & -> & Hhttp & -> & Hg1 & Hop1 & Hw1 & Hwn1 & Hfiles1).
      eapply wp_mono; [apply IH|].
      intros o s2 t2 (Hf2 & Hm2 & Hc2 & Hfiles2 & Ho2).
      trace_simpl. rewrite Hf1, Hf2, Hg1, Hop1.
      split; [reflexivity|]. split; [discriminate|]. split; [discriminate|].
      split.
      { intros p Hp. rewrite Hfiles2, Hfiles1.
        - apply lookup_insert_ne. intros <-. apply Hp. now left.
        - intros Hin. apply Hp. now right. }
      destruct o as [total|c|e]; [|exact I..].
      destruct Ho2 as [-> Hdone]. split; [lia|].
      destruct Hdone as [Hc|(rn' & names & Hrn & -> & Hg2 & Hop2)].
      { left. change (cancelled ([EvPoll false] ++ signalled sig ++ t1 ++ t2) = true).
        rewrite !cancelled_app, Hc. now rewrite !orb_true_r. }
      right. exists rn, (b :: names). simpl.
      assert (Heq : names <> [] -> rn' = rn).
      { intros Hne. destruct names; [contradiction|].
        assert (JStr rn = JStr rn') as [= ->] by (apply Hrn; discriminate).
        reflexivity. }
      destruct names as [|b' names].
      * simpl in *. rewrite Hg2, Hop2. now repeat split.
      * rewrite Heq in * by discriminate. rewrite Hg2, Hop2. now repeat split.
Qed.

(** The branches of a repository: a request only in all-branches mode. *)
Lemma branches_of_spec repo repo_name s :
  let url := branches_url (user args) (py_str w repo_name) in
  wp (branches_of w args repo repo_name)
     (fun o s' t =>
        forallb fetch_event t = true
        /\ (SIGNINT s = true -> SIGNINT s' = true)
        /\ files s' = files s
        /\ opens t = [] /\ written t = 0
        /\ (all_branches args = false -> t = [])
        /\ (gets t = [] \/ gets t = [url])
        /\ match o with
           | Ret branches =>
               if all_branches args then
                 exists r listing items,
                   w_http w (nreq s) url (headers w) = GetOk r
                   /\ json r = Some listing
                   /\ py_iter listing = inr items
                   /\ py_mapM (fun branch => getitem_str branch "name") items
                      = inr branches
                   /\ gets t = [url]
               else
                 exists d, getitem_str repo "default_branch" = inr d
                           /\ branches = [d]
           | _ => True
           end) s.
Proof.
  intros url. unfold branches_of. wp_go.
  destruct (getitem_str repo "default_branch") as [e|d] eqn:Hd;
    [repeat split; auto|].
  destruct (all_branches args) eqn:Hall.
  - wp_go. eapply wp_mono; [apply make_request_spec|].
    intros o s' t ((t' & -> & Hq) & Hfiles & Hnreq & Hm & Ho).
    pose proof (quiet_fetch_event _ Hq) as Hf.
    pose proof (quiet_gets _ Hq) as Hg.
    pose proof (quiet_opens _ Hq) as Hop.
    pose proof (quiet_written _ Hq) as Hwn.
    assert (Hm' : SIGNINT s = true -> SIGNINT s' = true) by auto.
    destruct o as [r|c|e]; unfold after.
    2,3: trace_simpl; rewrite ?Hf, ?Hg, ?Hop, ?Hwn; repeat split; auto; discriminate.
    destruct Ho as [Ho _]. unfold response_json.
    destruct (json r) as [listing|] eqn:Hjson; wp_go.
    2: trace_simpl; rewrite ?Hf, ?Hg, ?Hop, ?Hwn; repeat split; auto; discriminate.
    destruct (py_bind _ _) as [e|branches] eqn:Hb.
    1: trace_simpl; rewrite ?Hf, ?Hg, ?Hop, ?Hwn; repeat split; auto; discriminate.
    trace_simpl; rewrite ?Hf, ?Hg, ?Hop, ?Hwn. repeat split; auto; try discriminate.
    unfold py_bind in Hb. destruct (py_iter listing) as [e|items] eqn:Hiter; [discriminate|].
    exists r, listing, items. now repeat split.
  - wp_go. repeat split; auto. now exists d.
Qed.

(** The body of the loop over the repositories. *)
Lemma backup_repo_spec timestamp repo bytes_total s :
  wp (backup_repo w args timestamp repo bytes_total)
     (fun o s' t =>
        forallb fetch_event t = true
        /\ (SIGNINT s = true -> SIGNINT s' = true)
        /\ (forall p, ~ In p (opens t) -> files s' !! p = files s !! p)
        /\ (SIGNINT s = true ->
            opens t = [] /\ written t = 0
            /\ Forall (is_branches_url args) (gets t)
            /\ (all_branches args = false -> gets t = []))
        /\ match o with
           | Ret total =>
               total = bytes_total + written t
               /\ (cancelled t = true \/ tasks_of w args timestamp repo s t)
           | _ => True
           end) s.
Proof.
  unfold backup_repo. wp_go.
  destruct (getitem_str repo "name") as [e|repo_name] eqn:Hname;
    [repeat split; auto|].
  wp_go. eapply wp_mono; [apply branches_of_spec|].
  intros o s1 t1 (Hf1 & Hm1 & Hfiles1 & Hop1 & Hwn1 & Hnone1 & Hg1 & Ho1).
  assert (Hurls : Forall (is_branches_url args) (gets t1)).
  { destruct Hg1 as [->| ->]; repeat constructor. now eexists. }
  assert (Hnog : all_branches args = false -> gets t1 = []).
  { intros Hall. now rewrite (Hnone1 Hall). }
  destruct o as [branches|c|e]; unfold after;
    [|trace_simpl; rewrite Hf1, Hop1, Hwn1; repeat split; auto;
      intros p _; now rewrite Hfiles1..].
  eapply wp_mono; [apply for_branches_spec|].
  intros o s2 t2 (Hf2 & Hm2 & Hc2 & Hfiles2 & Ho2).
  trace_simpl. rewrite Hf1, Hf2, Hop1, Hwn1. simpl.
  split; [reflexivity|]. split; [auto|]. split.
  { intros p Hp. now rewrite Hfiles2, Hfiles1. }
  split.
  { intros Hs. destruct (Hc2 (Hm1 Hs)) as (Hg2 & Hop2 & _ & ->).
    destruct Ho2 as [Hw2 _]. rewrite Hg2, Hop2, app_nil_r.
    repeat split; auto. lia. }
  destruct o as [total|c|e]; [|exact I..].
  destruct Ho2 as [-> Hdone]. split; [reflexivity|].
  destruct Hdone as [Hc|(rn & names & Hrn & -> & Hg2 & Hop2)];
    [left; now rewrite Hc, orb_true_r|].
  right. unfold tasks_of.
  assert (Hstr : names <> [] -> py_str w repo_name = rn).
  { intros Hne. rewrite Hrn; [reflexivity|]. now destruct names. }
  destruct (all_branches args) eqn:Hall.
  - destruct Ho1 as (r & listing & items & Hhttp & Hjson & Hiter & Hmap & Hg).
    exists repo_name, r, listing, items, names.
    rewrite gets_app, opens_app, Hop1, Hg, Hg2, Hop2. repeat split; auto.
    + destruct names; [reflexivity|]. now rewrite Hstr.
    + destruct names; [reflexivity|]. now rewrite Hstr.
  - destruct Ho1 as (d & Hd & Hbr). rewrite (Hnone1 eq_refl) in *.
    destruct names as [|b [|b' names]]; try discriminate.
    injection Hbr as <-. simpl in Hrn. rewrite Hrn in * by discriminate.
    exists rn, b. simpl. rewrite Hg2, Hop2. now repeat split.
Qed.

(** The loop over the repositories.  With the flag set on entry no archive
    is requested and no file is opened; in all-branches mode the lists of
    branches are still requested. *)
Lemma for_repos_spec timestamp repos bytes_total s :
  wp (for_repos w args timestamp repos bytes_total)
     (fun o s' t =>
        forallb fetch_event t = true
        /\ (SIGNINT s = true -> SIGNINT s' = true)
        /\ (forall p, ~ In p (opens t) -> files s' !! p = files s !! p)
        /\ (SIGNINT s = true ->
            opens t = [] /\ written t = 0
            /\ Forall (is_branches_url args) (gets t)
            /\ (all_branches args = false -> gets t = []))
        /\ match o with
           | Ret total => total = bytes_total + written t
           | _ => True
           end) s.
Proof.
  revert bytes_total s.
  induction repos as [|repo rest IH]; intros bytes_total s; simpl.
  - wp_go. repeat split; auto.
  - wp_go. eapply wp_mono; [apply backup_repo_spec|].
    intros o s1 t1 (Hf1 & Hm1 & Hfiles1 & Hc1 & Ho1).
    destruct o as [total1|c|e]; unfold after.
    2,3: now repeat (split; [assumption|]).
    destruct Ho1 as [-> _].
    eapply wp_mono; [apply IH|].
    intros o s2 t2 (Hf2 & Hm2 & Hfiles2 & Hc2 & Ho2).
    trace_simpl. rewrite Hf1, Hf2.
    split; [reflexivity|]. split; [auto|]. split.
    { intros p Hp. rewrite Hfiles2, Hfiles1; [reflexivity| |];
        intros Hin; apply Hp, in_or_app; auto. }
    split.
    { intros Hs. destruct (Hc1 Hs) as (Hop1 & Hwn1 & Hu1 & Hg1).
      destruct (Hc2 (Hm1 Hs)) as (Hop2 & Hwn2 & Hu2 & Hg2).
      rewrite Hop1, Hop2, Hwn1, Hwn2. repeat split; auto.
      - now apply Forall_app.
      - intros Hall. now rewrite Hg1, Hg2. }
    destruct o; auto. lia.
Qed.

End Loop.

(** ** The cancellation flag *)

Lemma all_set_app l1 l2 : all_set (l1 ++ l2) = all_set l1 && all_set l2.
Proof. apply forallb_app. Qed.

Lemma nondecreasing_app l1 l2 :
  nondecreasing l1 = true -> nondecreasing l2 = true ->
  (existsb (fun b => b) l1 = true -> all_set l2 = true) ->
  nondecreasing (l1 ++ l2) = true.
Proof.
  induction l1 as [|b l1 IH]; simpl; intros H1 H2 H; [exact H2|].
  apply andb_prop in H1 as [Hb H1]. apply andb_true_intro. split.
  - destruct b; simpl in *; [|reflexivity].
    rewrite all_set_app, Hb. now apply H.
  - apply IH; auto. intros Hex. apply H. now rewrite Hex, orb_true_r.
Qed.

Lemma wb_ret {A} (a : A) : well_behaved (ret a).
Proof. intros s. simpl. repeat split; auto. discriminate. Qed.

Lemma wb_raise {A} e : well_behaved (@raise A e).
Proof. intros s. simpl. repeat split; auto. discriminate. Qed.

Lemma wb_exit_error {A} : well_behaved (@exit A (-1)).
Proof. intros s. simpl. repeat split; auto. discriminate. Qed.

Lemma wb_get : well_behaved get.
Proof. intros s. simpl. repeat split; auto. discriminate. Qed.

Lemma wb_modify f : (forall s, SIGNINT (f s) = SIGNINT s) -> well_behaved (modify f).
Proof. intros Hf s. simpl. rewrite Hf. repeat split; auto. discriminate. Qed.

Lemma wb_of_py {A} (x : Py A) : well_behaved (of_py x).
Proof. destruct x; [apply wb_raise|apply wb_ret]. Qed.

Lemma wb_bind {A B} (m : M A) (f : A -> M B) :
  well_behaved m -> (forall a, well_behaved (f a)) -> well_behaved (bind m f).
Proof.
  intros Hm Hf s. destruct (Hm s) as (Hset & Hcan & Hnd & Hexit).
  unfold bind. revert Hexit.
  destruct (outcome (m s)) as [a|c|e]; intros Hexit; simpl;
    [|now repeat (split; [assumption|])..].
  destruct (Hf a (final (m s))) as (Hset' & Hcan' & Hnd' & Hexit').
  rewrite polls_app, all_set_app, cancelled_app.
  split; [|split; [|split]].
  - intros Hs. destruct (Hset Hs) as [H1 ->]. destruct (Hset' H1) as [-> ->]. now split.
  - intros [Hc|Hc]%orb_prop; [|now apply Hcan'].
    now apply Hset', Hcan.
  - apply nondecreasing_app; auto. intros Hc. now apply Hset', Hcan.
  - destruct (outcome (f a _)); auto.
    destruct Hexit' as [->|[-> ->]]; [now left|right]. now rewrite orb_true_r.
Qed.

Lemma wb_try {A} (m : M A) (h : PyExc -> M A) :
  well_behaved m -> (forall e, well_behaved (h e)) -> well_behaved (try_except m h).
Proof.
  intros Hm Hh s. destruct (Hm s) as (Hset & Hcan & Hnd & Hexit).
  unfold try_except. destruct (outcome (m s)) as [a|c|e] eqn:Ho;
    [rewrite Ho; now repeat (split; [assumption|])..|]. simpl.
  clear Hexit.
  destruct (Hh e (final (m s))) as (Hset' & Hcan' & Hnd' & Hexit').
  rewrite polls_app, all_set_app, cancelled_app.
  split; [|split; [|split]].
  - intros Hs. destruct (Hset Hs) as [H1 ->]. destruct (Hset' H1) as [-> ->]. now split.
  - intros [Hc|Hc]%orb_prop; [|now apply Hcan'].
    now apply Hset', Hcan.
  - apply nondecreasing_app; auto. intros Hc. now apply Hset', Hcan.
  - destruct (outcome (h e _)); auto.
    destruct Hexit' as [->|[-> ->]]; [now left|right]. now rewrite orb_true_r.
Qed.

Section Flag.

Context (w : World).

Lemma wb_step e : is_poll e = false -> well_behaved (step w e).
Proof.
  intros He s. unfold step.
  destruct (w_sigint w (tick s)); destruct e; try discriminate; simpl;
    repeat split; auto; discriminate.
Qed.

Lemma wb_poll : well_behaved (poll w).
Proof.
  intros s. unfold poll, step, bind, get, ret. simpl.
  destruct (w_sigint w (tick s)), (SIGNINT s) eqn:Hs; simpl;
    repeat split; auto; try discriminate.
Qed.

(** The check of the backoff wait: [if SIGNINT: spinner.stop(); exit(0)]. *)
Lemma wb_poll_exit (k : M unit) :
  well_behaved k ->
  well_behaved (flag <- poll w ;;
                (if flag : bool then spinner w SpStop ;;; exit 0 else ret tt) ;;;
                k).
Proof.
  intros Hk s. unfold poll, spinner, step, bind, get, ret, exit. simpl.
  destruct (SIGNINT s) eqn:Hs.
  - destruct (w_sigint w (tick s)); simpl;
      destruct (w_sigint w (S (tick s))); simpl; repeat split; auto.
  - destruct (w_sigint w (tick s)) eqn:Hsig; simpl.
    + destruct (Hk (signal_handler (tock s))) as (Hset & Hcan & Hnd & Hexit).
      destruct (Hset eq_refl) as [Hfin Hall].
      destruct (outcome (k _)); simpl;
        (split; [discriminate|]); (split; [auto|]); rewrite Hnd, ?Hall; auto.
    + destruct (Hk (tock s)) as (Hset & Hcan & Hnd & Hexit).
      destruct (outcome (k _)); simpl;
        (split; [discriminate|]); (split; [auto|]); rewrite Hnd; auto.
Qed.

Ltac wb_step :=
  lazymatch goal with
  | |- well_behaved (bind (poll _) (fun flag => bind (if flag then _ else _) _)) =>
      apply wb_poll_exit
  | |- well_behaved (bind _ _) => apply wb_bind; [|intros ?]
  | |- well_behaved (try_except _ _) => apply wb_try; [|intros ?]
  | |- well_behaved (ret _) => apply wb_ret
  | |- well_behaved (raise _) => apply wb_raise
  | |- well_behaved (exit (-1)) => apply wb_exit_error
  | |- well_behaved get => apply wb_get
  | |- well_behaved (of_py _) => apply wb_of_py
  | |- well_behaved (poll _) => apply wb_poll
  | |- well_behaved (step _ _) => apply wb_step; reflexivity
  | |- well_behaved (modify _) => apply wb_modify; reflexivity
  | |- well_behaved (if ?b then _ else _) => destruct b
  | |- well_behaved (match ?x with _ => _ end) => destruct x
  | |- well_behaved _ => assumption
  end.

Ltac wb := repeat wb_step.

Lemma wb_wait_loop wait_time_s range : well_behaved (wait_loop w wait_time_s range).
Proof.
  induction range as [|i rest IH]; simpl; unfold spinner, time_sleep; wb.
Qed.

Lemma wb_rate_limit_check r : well_behaved (rate_limit_check w r).
Proof.
  unfold rate_limit_check, logging, spinner.
  pose proof (wb_wait_loop RATE_LIMIT_WAIT_TIME_S (seq 0 RATE_LIMIT_WAIT_TIME_S)).
  wb.
Qed.

Lemma wb_make_request url h : well_behaved (make_request w url h).
Proof.
  pose proof wb_rate_limit_check.
  unfold make_request, requests_get, raise_for_status, logging. wb.
  all: auto.
Qed.

Section FlagMain.

Context (args : Args).

Lemma wb_fetch_branch timestamp repo_name branch :
  well_behaved (fetch_branch w args timestamp repo_name branch).
Proof.
  pose proof wb_make_request.
  unfold fetch_branch, spinner, open_wb, file_write. wb. all: auto.
Qed.

Lemma wb_for_branches timestamp repo_name branches bytes_total :
  well_behaved (for_branches w args timestamp repo_name branches bytes_total).
Proof.
  pose proof wb_fetch_branch.
  revert bytes_total. induction branches as [|b rest IH]; intros bytes_total; simpl; wb.
  all: auto.
Qed.

Lemma wb_branches_of repo repo_name : well_behaved (branches_of w args repo repo_name).
Proof.
  pose proof wb_make_request.
  unfold branches_of, response_json. wb. all: auto.
Qed.

Lemma wb_backup_repo timestamp repo bytes_total :
  well_behaved (backup_repo w args timestamp repo bytes_total).
Proof.
  pose proof wb_branches_of. pose proof wb_for_branches.
  unfold backup_repo. wb. all: auto.
Qed.

Lemma wb_for_repos timestamp repos bytes_total :
  well_behaved (for_repos w args timestamp repos bytes_total).
Proof.
  pose proof wb_backup_repo.
  revert bytes_total. induction repos as [|r rest IH]; intros bytes_total; simpl; wb.
  all: auto.
Qed.

Lemma wb_backup repos : well_behaved (backup w args repos).
Proof.
  pose proof wb_for_repos.
  unfold backup, datetime_now, logging, os_makedirs, spinner. wb. all: auto.
Qed.

Lemma wb_main : well_behaved (main w args).
Proof.
  pose proof wb_backup. pose proof wb_make_request.
  unfold main, os_path_isdir, logging, response_json. wb. all: auto.
Qed.

End FlagMain.

End Flag.

(** ** The whole run *)

Lemma fetch_event_no P t :
  (forall e, fetch_event e = true -> P e = false) ->
  forallb fetch_event t = true -> existsb P t = false.
Proof.
  intros HP. induction t as [|e t IH]; simpl; [reflexivity|].
  intros [He Ht]%andb_prop. now rewrite (HP e He), IH.
Qed.

Lemma fetch_event_no_report t :
  forallb fetch_event t = true -> existsb is_report t = false.
Proof. apply fetch_event_no. intros [| | | | | | | | |? []|]; now intros. Qed.

Lemma fetch_event_no_makedirs t :
  forallb fetch_event t = true -> existsb is_makedirs t = false.
Proof. apply fetch_event_no. intros []; now intros. Qed.

Lemma existsb_signalled P sig :
  P EvSignal = false -> existsb P (signalled sig) = false.
Proof. intros H. destruct sig; simpl; [now rewrite H|reflexivity]. Qed.

Lemma report_signalled sig : existsb is_report (signalled sig) = false.
Proof. now destruct sig. Qed.

Lemma makedirs_signalled sig : existsb is_makedirs (signalled sig) = false.
Proof. now destruct sig. Qed.

Lemma session_signalled sig : existsb is_session (signalled sig) = false.
Proof. now destruct sig. Qed.

#[local] Hint Rewrite report_signalled makedirs_signalled session_signalled : trace.

Section Run.

Context (w : World) (args : Args).

(** What follows the repository-list request.  The run reaches the end of
    the script exactly when the report is logged; the report carries the
    number of bytes handed to [f.write]. *)
Lemma backup_spec repos s :
  wp (backup w args repos)
     (fun o s' t =>
        match o with
        | Ret _ =>
            exists pre completed elapsed sig1 sig2,
              t = pre ++ EvLog INFO (BackupCompleted completed (written pre)
                                       (dest' args) elapsed)
                         :: signalled sig1 ++ EvSpinner SpStop :: signalled sig2
              /\ existsb is_report pre = false
              /\ existsb is_makedirs pre = true
        | _ => existsb is_report t = false
        end) s.
Proof.
  unfold backup, datetime_now, logging, os_makedirs, spinner.
  wp_go. apply wp_try. wp_go.
  destruct (py_bind _ _) as [e|first]; [destruct e|]; wp_go; try now trace_simpl.
  apply wp_try. wp_go.
  destruct (w_makedirs w _); wp_go; [|now trace_simpl].
  destruct (py_iter repos) as [e|repo_list]; [now trace_simpl|].
  wp_go. eapply wp_mono; [apply for_repos_spec|].
  intros o s' t (Hf & _ & _ & _ & Ho).
  pose proof (fetch_event_no_report _ Hf) as Hr.
  destruct o as [total|c|e]; unfold after; [|trace_simpl; now rewrite Hr..].
  wp_go. subst total.
  set (timestamp := w_isoformat w (w_clock w (tick s))).
  exists (EvNow :: signalled sig
          ++ EvLog INFO (StartingBackup (user args) (authenticated w) timestamp)
          :: signalled sig0
          ++ EvMakedirs (dest' args ++ timestamp)%string :: signalled sig1
          ++ t ++ EvNow :: signalled sig2 ++ EvNow :: signalled sig3).
  eexists _, _, sig4, sig5.
  split; [|split].
  - trace_simpl. repeat (progress (simpl; rewrite <- ?app_assoc, ?Nat.add_0_r)).
    reflexivity.
  - trace_simpl. now rewrite Hr.
  - now trace_simpl.
Qed.

Lemma quiet_no_session t : forallb quiet t = true -> existsb is_session t = false.
Proof. apply quiet_no. intros []; now intros. Qed.

Lemma quiet_no_report t : forallb quiet t = true -> existsb is_report t = false.
Proof. apply quiet_no. intros [| | | | | | | | |? []|]; now intros. Qed.

(** The whole script.  The events split in two: those up to the answer to
    the repository-list request, none of which belongs to the session, and
    those of [backup], which only follow a successful answer. *)
Lemma main_spec s :
  wp (main w args)
     (fun o s' t =>
        (exists pre rest,
            t = pre ++ rest
            /\ existsb is_session pre = false
            /\ existsb is_report pre = false
            /\ written pre = 0
            /\ (rest <> [] ->
                In (EvGet (search_url (user args)) (headers w)) pre
                /\ exists r,
                    w_http w (nreq s) (search_url (user args)) (headers w) = GetOk r
                    /\ ((400 <=? status_code r)%Z && (status_code r <? 600)%Z = false)))
        /\ match o with
           | Ret _ =>
               exists pre completed elapsed sig1 sig2,
                 t = pre ++ EvLog INFO (BackupCompleted completed (written pre)
                                          (dest' args) elapsed)
                            :: signalled sig1 ++ EvSpinner SpStop :: signalled sig2
                 /\ existsb is_report pre = false
                 /\ existsb is_makedirs pre = true
           | _ => existsb is_report t = false
           end) s.
Proof.
  unfold main, os_path_isdir, logging. wp_go.
  destruct (w_isdir w (dest args)); wp_go.
  2:{ split; [|now trace_simpl]. eexists _, [].
      split; [symmetry; apply app_nil_r|]. trace_simpl.
      repeat split; auto; congruence. }
  eapply wp_mono; [apply make_request_spec|].
  intros o s1 t1 ((t1' & -> & Hq) & _ & _ & _ & Ho).
  autorewrite with state in Ho.
  pose proof (quiet_no_session _ Hq) as Hns.
  pose proof (quiet_no_report _ Hq) as Hnr.
  pose proof (quiet_written _ Hq) as Hnw.
  set (pre := EvIsDir (dest args) :: signalled sig
              ++ EvGet (search_url (user args)) (headers w) :: t1').
  assert (Hpre : existsb is_session pre = false
                 /\ existsb is_report pre = false
                 /\ written pre = 0).
  { subst pre. trace_simpl. now rewrite Hns, Hnr, Hnw. }
  assert (Hstop : forall t,
             t = pre ->
             exists pre rest,
               t = pre ++ rest
               /\ existsb is_session pre = false
               /\ existsb is_report pre = false
               /\ written pre = 0
               /\ (rest <> [] ->
                   In (EvGet (search_url (user args)) (headers w)) pre
                   /\ exists r,
                       w_http w (nreq s) (search_url (user args)) (headers w) = GetOk r
                       /\ ((400 <=? status_code r)%Z && (status_code r <? 600)%Z
                           = false))).
  { intros t ->. exists pre, []. rewrite app_nil_r.
    destruct Hpre as (? & ? & ?). repeat split; auto; congruence. }
  assert (Hquiet : forall t, t = pre -> existsb is_report t = false).
  { intros t ->. apply Hpre. }
  destruct o as [r|c|e]; unfold after.
  2,3: split; [apply Hstop|apply Hquiet]; subst pre; now trace_simpl.
  unfold response_json. destruct (json r) as [body|]; wp_go.
  2:{ split; [apply Hstop|apply Hquiet]; subst pre; now trace_simpl. }
  destruct (getitem_str body "items") as [e|repos].
  1:{ split; [apply Hstop|apply Hquiet]; subst pre; now trace_simpl. }
  eapply wp_mono; [apply backup_spec|].
  intros o s2 t2 Ho2. destruct Hpre as (Hps & Hpr & Hpw). split.
  - exists pre, t2.
    split; [subst pre; trace_simpl; now rewrite <- ?app_assoc|].
    repeat split; auto.
    + subst pre. apply in_cons, in_or_app. right. now left.
    + exists r. exact Ho.
  - destruct o as [[]|c|e].
    + destruct Ho2 as (pre2 & completed & elapsed & sig1 & sig2 & -> & Hr2 & Hm2).
      exists (pre ++ pre2), completed, elapsed, sig1, sig2.
      rewrite written_app, !existsb_app, Hpr, Hpw, Hr2, Hm2.
      split; [|split; [reflexivity|now rewrite orb_true_r]].
      subst pre. repeat (progress (simpl; rewrite <- ?app_assoc)). reflexivity.
    + replace (_ ++ _) with (pre ++ t2)
        by (subst pre; trace_simpl; now rewrite <- ?app_assoc).
      now rewrite existsb_app, Hpr, Ho2.
    + replace (_ ++ _) with (pre ++ t2)
        by (subst pre; trace_simpl; now rewrite <- ?app_assoc).
      now rewrite existsb_app, Hpr, Ho2.
Qed.

End Run.

(** ** Properties of the run *)

(** C10. The flag is monotone.  The handler sets it; a step of the script
    leaves it set; over a whole run it is still set at the end when it was
    set at the start, the values read at its checks never go from set back
    to unset, and every check reads it set when it was set at the start. *)
Theorem flag_monotone w args s :
  SIGNINT (signal_handler s) = true
  /\ (forall e, SIGNINT s = true -> SIGNINT (final (step w e s)) = true)
  /\ (SIGNINT s = true -> SIGNINT (final (main w args s)) = true)
  /\ nondecreasing (polls (events (main w args s))) = true
  /\ (SIGNINT s = true -> all_set (polls (events (main w args s))) = true)
  /\ (cancelled (events (main w args s)) = true ->
      SIGNINT (final (main w args s)) = true).
Proof.
  destruct (wb_main w args s) as (Hset & Hcan & Hnd & _).
  split; [reflexivity|]. split.
  { intros e Hs. unfold step. destruct (w_sigint w (tick s)); simpl; auto. }
  repeat split; auto; now apply Hset.
Qed.

(** C4. When the destination is not a directory the script leaves by
    [exit(-1)], a nonzero status, right after the error line: no request
    was issued, no directory created, no file opened or written. *)
Theorem missing_destination w args s :
  w_isdir w (dest args) = false ->
  outcome (main w args s) = Exit (-1)
  /\ exit_status (outcome (main w args s)) <> 0%Z
  /\ gets (events (main w args s)) = []
  /\ existsb is_session (events (main w args s)) = false
  /\ nreq (final (main w args s)) = nreq s
  /\ files (final (main w args s)) = files s.
Proof.
  intros Hdir.
  change (wp (main w args)
            (fun o s' t =>
               o = Exit (-1) /\ exit_status o <> 0%Z /\ gets t = []
               /\ existsb is_session t = false
               /\ nreq s' = nreq s /\ files s' = files s) s).
  unfold main, os_path_isdir, logging. wp_go. rewrite Hdir. wp_go.
  autorewrite with state. trace_simpl. repeat split; auto; discriminate.
Qed.

(** The run of Scenario B. *)
Lemma missing_destination_sample :
  outcome (main Sample.no_dest Sample.hello_args initial) = Exit (-1)
  /\ exit_status (outcome (main Sample.no_dest Sample.hello_args initial)) <> 0%Z
  /\ gets (events (main Sample.no_dest Sample.hello_args initial)) = []
  /\ existsb is_session (events (main Sample.no_dest Sample.hello_args initial)) = false
  /\ nreq (final (main Sample.no_dest Sample.hello_args initial)) = nreq initial
  /\ files (final (main Sample.no_dest Sample.hello_args initial)) = files initial.
Proof. apply (missing_destination Sample.no_dest Sample.hello_args initial). reflexivity. Defined.



(** C3, as the code has it.  The repository-list request comes first: the
    events of a run split into those up to the answer to that request, none
    of which reads the timestamp, creates the session directory or touches
    a file, and the rest, which exists only when the request was answered
    with a status that is not an error.  So when the repository list cannot
    be fetched the session directory has not been created and no file has
    been written. *)
Theorem enumerate_before_init w args s :
  (exists pre rest,
      events (main w args s) = pre ++ rest
      /\ existsb is_session pre = false
      /\ (rest <> [] -> In (EvGet (search_url (user args)) (headers w)) pre))
  /\ (existsb is_session (events (main w args s)) = true ->
      exists r,
        w_http w (nreq s) (search_url (user args)) (headers w) = GetOk r
        /\ ((400 <=? status_code r)%Z && (status_code r <? 600)%Z = false)).
Proof.
  pose proof (main_spec w args s) as [(pre & rest & Ht & Hs & _ & _ & Hrest) _].
  unfold wp in *. split.
  - exists pre, rest. repeat split; auto. intros Hne. now apply Hrest.
  - rewrite Ht, existsb_app, Hs. simpl. intros Hex.
    apply Hrest. intros ->. discriminate.
Qed.

(** Scenario A: the request for the repositories goes out before the
    timestamp is read and the session directory is created. *)
Lemma request_precedes_session_directory :
  init_before_enumerate (events (main Sample.hello Sample.hello_args initial)) = false.
Proof. vm_compute. reflexivity. Qed.




(** C6. A download that completes has written the body of the answer to
    the archive request, byte for byte, to the file of the branch: one
    [write] call with that body, after which the file holds exactly it, and
    the count returned is the length of the body. *)
Theorem archive_written_verbatim w args timestamp repo_name branch s n :
  outcome (fetch_branch w args timestamp repo_name branch s) = Ret n ->
  exists rn b r,
    let url := archive_url (user args) rn b (file_extension args) in
    let path := archive_path (dest' args) timestamp rn b (file_extension args) in
    repo_name = JStr rn /\ branch = JStr b
    /\ w_http w (nreq s) url (headers w) = GetOk r
    /\ gets (events (fetch_branch w args timestamp repo_name branch s)) = [url]
    /\ writes (events (fetch_branch w args timestamp repo_name branch s))
       = [(path, content r)]
    /\ files (final (fetch_branch w args timestamp repo_name branch s)) !! path
       = Some (content r)
    /\ n = length (content r)
    /\ written (events (fetch_branch w args timestamp repo_name branch s)) = n.
Proof.
  intros Hret.
  pose proof (fetch_branch_spec w args timestamp repo_name branch s) as (_ & _ & H).
  unfold wp in H. rewrite Hret in H.
  destruct H as (rn & b & r & Hn & Hb & Hhttp & Hlen & Hg & _ & Hw & Hwn & Hfiles).
  exists rn, b, r. simpl. repeat split; auto.
  rewrite Hfiles. apply lookup_insert_eq.
Qed.

(** The download of Scenario A. *)
Lemma archive_written_verbatim_sample :
  exists rn b r,
    let url := archive_url (user Sample.hello_args) rn b (file_extension Sample.hello_args) in
    let path := archive_path (dest' Sample.hello_args) "ts" rn b
                  (file_extension Sample.hello_args) in
    JStr "Hello-World" = JStr rn /\ JStr "master" = JStr b
    /\ w_http Sample.hello (nreq initial) url (headers Sample.hello) = GetOk r
    /\ gets (events (fetch_branch Sample.hello Sample.hello_args "ts"
                       (JStr "Hello-World") (JStr "master") initial)) = [url]
    /\ writes (events (fetch_branch Sample.hello Sample.hello_args "ts"
                         (JStr "Hello-World") (JStr "master") initial))
       = [(path, content r)]
    /\ files (final (fetch_branch Sample.hello Sample.hello_args "ts"
                       (JStr "Hello-World") (JStr "master") initial)) !! path
       = Some (content r)
    /\ 4 = length (content r)
    /\ written (events (fetch_branch Sample.hello Sample.hello_args "ts"
                          (JStr "Hello-World") (JStr "master") initial)) = 4.
Proof.
  apply (archive_written_verbatim Sample.hello Sample.hello_args "ts"
           (JStr "Hello-World") (JStr "master") initial 4).
  vm_compute. reflexivity.
Defined.

(** C7. A repository whose loop body runs to its end without a check
    finding the flag set: without [--all-branches] the only request is the
    one for the archive of the default branch, and that one file is opened;
    with it, the list of branches is requested, then one archive per branch
    of the answer, in order, each to its own file. *)
Theorem one_task_per_branch w args timestamp repo bytes_total s total :
  outcome (backup_repo w args timestamp repo bytes_total s) = Ret total ->
  cancelled (events (backup_repo w args timestamp repo bytes_total s)) = false ->
  tasks_of w args timestamp repo s (events (backup_repo w args timestamp repo bytes_total s))
  /\ total = bytes_total
             + written (events (backup_repo w args timestamp repo bytes_total s)).
Proof.
  intros Hret Hcan.
  pose proof (backup_repo_spec w args timestamp repo bytes_total s) as (_ & _ & _ & _ & H).
  unfold wp in H. rewrite Hret in H. destruct H as [-> [H|H]]; [congruence|].
  now split.
Qed.

(** The repository of Scenario A. *)
Lemma one_task_per_branch_sample :
  tasks_of Sample.hello Sample.hello_args "ts" (Sample.repo "Hello-World" "master") initial
    (events (backup_repo Sample.hello Sample.hello_args "ts"
               (Sample.repo "Hello-World" "master") 0 initial))
  /\ 4 = 0 + written (events (backup_repo Sample.hello Sample.hello_args "ts"
                                (Sample.repo "Hello-World" "master") 0 initial)).
Proof.
  apply (one_task_per_branch Sample.hello Sample.hello_args "ts"
           (Sample.repo "Hello-World" "master") 0 initial 4);
    vm_compute; reflexivity.
Defined.

(** C1 on the run of two repositories with [--all-branches], interrupted
    while the first archive is downloaded.  The first file is written
    whole and no file is opened after the check that found the flag set;
    but the outer loop goes on, and the list of branches of the second
    repository is requested after that check. *)
Theorem branch_listing_after_cancellation :
  let run := main (Sample.interrupted 9) Sample.two_args initial in
  outcome run = Ret tt
  /\ writes (events run)
     = [("/backup/2024-05-01T10:00:00.000000/one_main.tar.gz"%string, Sample.archive)]
  /\ opens (after_cancellation (events run)) = []
  /\ gets (after_cancellation (events run)) = [branches_url "octocat" "two"].
Proof. vm_compute. repeat split; reflexivity. Qed.

(** ** Destination paths *)








(** ** More on requests *)

(** X1. A call of [make_request] sends exactly one GET, to the URL and with
    the headers it was given, whatever comes of it: there is no second
    attempt.  What follows the GET is the backoff wait and at most an error
    line; no file is touched. *)
Theorem make_request_single_get w url h s :
  gets (events (make_request w url h s)) = [url]
  /\ (exists t', events (make_request w url h s) = EvGet url h :: t'
                 /\ forallb quiet t' = true)
  /\ nreq (final (make_request w url h s)) = S (nreq s)
  /\ files (final (make_request w url h s)) = files s.
Proof.
  pose proof (make_request_spec w url h s) as ((t' & Ht & Hq) & Hfiles & Hnreq & _).
  unfold wp in *. rewrite Ht. simpl. rewrite (quiet_gets _ Hq).
  repeat split; auto. now exists t'.
Qed.

(** X2. A request that gets no answer (connection error, timeout, too many
    redirects) ends the program: the error line of that failure is logged
    and [exit(-1)] follows, without any wait. *)
Theorem make_request_no_answer w url h s msg :
  failure_message (w_http w (nreq s) url h) = Some msg ->
  outcome (make_request w url h s) = Exit (-1)
  /\ exit_status (outcome (make_request w url h s)) = 255%Z
  /\ slept (events (make_request w url h s)) = 0
  /\ exists sig1 sig2,
      events (make_request w url h s)
      = EvGet url h :: signalled sig1 ++ EvLog ERROR msg :: signalled sig2.
Proof.
  intros Hmsg.
  change (wp (make_request w url h)
            (fun o _ t =>
               o = Exit (-1) /\ exit_status o = 255%Z /\ slept t = 0
               /\ exists sig1 sig2,
                   t = EvGet url h :: signalled sig1 ++ EvLog ERROR msg :: signalled sig2)
            s).
  unfold make_request, requests_get, logging. apply wp_try. wp_go.
  destruct (w_http w (nreq s) url h); simpl in Hmsg; try discriminate;
    injection Hmsg as <-; wp_go; trace_simpl;
    (repeat split; auto); exists sig, sig0; now trace_simpl.
Qed.

(** A connection that is refused. *)
Lemma make_request_no_answer_sample :
  let w := {| w_isdir := w_isdir Sample.hello; w_environ := w_environ Sample.hello;
              w_http := fun _ _ _ => GetConnectionError;
              w_clock := w_clock Sample.hello; w_isoformat := w_isoformat Sample.hello;
              w_makedirs := w_makedirs Sample.hello; w_open := w_open Sample.hello;
              w_sigint := w_sigint Sample.hello; w_repr := w_repr Sample.hello |} in
  outcome (make_request w "u" ∅ initial) = Exit (-1)
  /\ exit_status (outcome (make_request w "u" ∅ initial)) = 255%Z
  /\ slept (events (make_request w "u" ∅ initial)) = 0
  /\ exists sig1 sig2,
      events (make_request w "u" ∅ initial)
      = EvGet "u" ∅ :: signalled sig1 ++ EvLog ERROR FailedToConnect :: signalled sig2.
Proof.
  intros w. apply (make_request_no_answer w "u" ∅ initial FailedToConnect). reflexivity.
Defined.

(** X3. An answer with an error status (400 to 599) never comes back to
    the caller, and when it carries no quota header the text of the answer
    is logged and [exit(-1)] follows. *)
Theorem make_request_error_status w url h s r :
  w_http w (nreq s) url h = GetOk r ->
  (400 <= status_code r < 600)%Z ->
  (forall r', outcome (make_request w url h s) <> Ret r')
  /\ (resp_headers r !! "X-RateLimit-Remaining" = None ->
      outcome (make_request w url h s) = Exit (-1)
      /\ exists sig1 sig2,
          events (make_request w url h s)
          = EvGet url h :: signalled sig1
            ++ EvLog ERROR (FailedToConnectText (text r)) :: signalled sig2).
Proof.
  intros Hhttp Hstatus.
  assert (Herr : (400 <=? status_code r)%Z && (status_code r <? 600)%Z = true).
  { apply andb_true_intro. split; [apply Z.leb_le|apply Z.ltb_lt]; lia. }
  split.
  - intros r' Hret.
    pose proof (make_request_spec w url h s) as (_ & _ & _ & _ & Ho).
    unfold wp in Ho. rewrite Hret in Ho. destruct Ho as [Hr Hok].
    rewrite Hhttp in Hr. injection Hr as <-. congruence.
  - intros Hquota.
    change (wp (make_request w url h)
              (fun o _ t =>
                 o = Exit (-1)
                 /\ exists sig1 sig2,
                     t = EvGet url h :: signalled sig1
                         ++ EvLog ERROR (FailedToConnectText (text r)) :: signalled sig2)
              s).
    unfold make_request, requests_get, rate_limit_check, raise_for_status, logging.
    apply wp_try. wp_go. rewrite Hhttp. wp_go. rewrite Hquota, Herr. wp_go.
    split; [reflexivity|]. exists sig, sig0. now trace_simpl.
Qed.

(** A 404 without quota header. *)
Lemma make_request_error_status_sample :
  let r := {| status_code := 404; resp_headers := ∅; content := [];
              text := "Not Found"; json := None |} in
  let w := {| w_isdir := w_isdir Sample.hello; w_environ := w_environ Sample.hello;
              w_http := fun _ _ _ => GetOk r;
              w_clock := w_clock Sample.hello; w_isoformat := w_isoformat Sample.hello;
              w_makedirs := w_makedirs Sample.hello; w_open := w_open Sample.hello;
              w_sigint := w_sigint Sample.hello; w_repr := w_repr Sample.hello |} in
  (forall r', outcome (make_request w "u" ∅ initial) <> Ret r')
  /\ (resp_headers r !! "X-RateLimit-Remaining" = None ->
      outcome (make_request w "u" ∅ initial) = Exit (-1)
      /\ exists sig1 sig2,
          events (make_request w "u" ∅ initial)
          = EvGet "u" ∅ :: signalled sig1
            ++ EvLog ERROR (FailedToConnectText (text r)) :: signalled sig2).
Proof.
  intros r w. apply (make_request_error_status w "u" ∅ initial r); [reflexivity|].
  simpl. lia.
Defined.







(** ** The progress line *)




(** ** Failures of the run *)

(** X7. The shape check of the repository list.  When looking up the name
    of the first element raises [KeyError] (the first record has no [name],
    or the list is an object), the script logs the invalid-response line
    and leaves by [exit(-1)] before the session directory is created: no
    further request, no file. *)
Theorem invalid_response w args repos s :
  py_bind (getitem_int repos 0) (fun first => getitem_str first "name") = inl KeyError ->
  outcome (backup w args repos s) = Exit (-1)
  /\ existsb is_invalid_response (events (backup w args repos s)) = true
  /\ existsb is_makedirs (events (backup w args repos s)) = false
  /\ gets (events (backup w args repos s)) = []
  /\ opens (events (backup w args repos s)) = []
  /\ files (final (backup w args repos s)) = files s.
Proof.
  intros Hcheck.
  change (wp (backup w args repos)
            (fun o s' t =>
               o = Exit (-1) /\ existsb is_invalid_response t = true
               /\ existsb is_makedirs t = false /\ gets t = [] /\ opens t = []
               /\ files s' = files s) s).
  unfold backup, datetime_now, logging. wp_go. apply wp_try. wp_go.
  rewrite Hcheck. wp_go. autorewrite with state. trace_simpl.
  repeat split; auto. now rewrite orb_true_r.
Qed.

(** A first record without name. *)
Lemma invalid_response_sample :
  outcome (backup Sample.hello Sample.hello_args (JArr [JObj []]) initial) = Exit (-1)
  /\ existsb is_invalid_response
       (events (backup Sample.hello Sample.hello_args (JArr [JObj []]) initial)) = true
  /\ existsb is_makedirs
       (events (backup Sample.hello Sample.hello_args (JArr [JObj []]) initial)) = false
  /\ gets (events (backup Sample.hello Sample.hello_args (JArr [JObj []]) initial)) = []
  /\ opens (events (backup Sample.hello Sample.hello_args (JArr [JObj []]) initial)) = []
  /\ files (final (backup Sample.hello Sample.hello_args (JArr [JObj []]) initial))
     = files initial.
Proof.
  apply (invalid_response Sample.hello Sample.hello_args (JArr [JObj []]) initial).
  reflexivity.
Defined.

(** X8. The session directory cannot be created (it exists already, for
    one): after the shape check has passed, a failing [os.makedirs] makes
    the script log the failure and leave by [exit(-1)]; no branch list and
    no archive is requested and no file is opened. *)
Theorem session_directory_collision w args repos s first_name :
  py_bind (getitem_int repos 0) (fun first => getitem_str first "name")
  = inr first_name ->
  w_makedirs w (dest' args +:+ w_isoformat w (w_clock w (tick s))) = false ->
  outcome (backup w args repos s) = Exit (-1)
  /\ makedirs_failed (events (backup w args repos s)) = true
  /\ gets (events (backup w args repos s)) = []
  /\ opens (events (backup w args repos s)) = []
  /\ existsb is_report (events (backup w args repos s)) = false
  /\ files (final (backup w args repos s)) = files s.
Proof.
  intros Hcheck Hmk.
  change (wp (backup w args repos)
            (fun o s' t =>
               o = Exit (-1) /\ makedirs_failed t = true
               /\ gets t = [] /\ opens t = []
               /\ existsb is_report t = false /\ files s' = files s) s).
  unfold backup, datetime_now, logging, os_makedirs. wp_go. apply wp_try. wp_go.
  rewrite Hcheck. wp_go. apply wp_try. wp_go. rewrite Hmk. wp_go.
  autorewrite with state. unfold makedirs_failed. trace_simpl.
  repeat split; auto. now rewrite !orb_true_r.
Qed.

(** The directory of the session is there already. *)
Lemma session_directory_collision_sample :
  let w := {| w_isdir := w_isdir Sample.hello; w_environ := w_environ Sample.hello;
              w_http := w_http Sample.hello;
              w_clock := w_clock Sample.hello; w_isoformat := w_isoformat Sample.hello;
              w_makedirs := fun _ => false; w_open := w_open Sample.hello;
              w_sigint := w_sigint Sample.hello; w_repr := w_repr Sample.hello |} in
  let repos := JArr [Sample.repo "Hello-World" "master"] in
  outcome (backup w Sample.hello_args repos initial) = Exit (-1)
  /\ makedirs_failed (events (backup w Sample.hello_args repos initial)) = true
  /\ gets (events (backup w Sample.hello_args repos initial)) = []
  /\ opens (events (backup w Sample.hello_args repos initial)) = []
  /\ existsb is_report (events (backup w Sample.hello_args repos initial)) = false
  /\ files (final (backup w Sample.hello_args repos initial)) = files initial.
Proof.
  intros w repos.
  apply (session_directory_collision w Sample.hello_args repos initial
           (JStr "Hello-World")); reflexivity.
Defined.

(** X9. The record of a repository is read before anything is asked for
    it.  Without [name], or without [default_branch], the lookup raises and
    the loop body ends on that exception with no event at all; the default
    branch is looked up, and so needed, with [--all-branches] too.  Only
    the first record went through the shape check. *)
Theorem repository_record_incomplete w args timestamp repo bytes_total s e :
  getitem_str repo "name" = inl e
  \/ ((exists repo_name, getitem_str repo "name" = inr repo_name)
      /\ getitem_str repo "default_branch" = inl e) ->
  outcome (backup_repo w args timestamp repo bytes_total s) = Raise e
  /\ events (backup_repo w args timestamp repo bytes_total s) = []
  /\ final (backup_repo w args timestamp repo bytes_total s) = s.
Proof.
  intros [Hname|[[repo_name Hname] Hdefault]];
    unfold backup_repo, branches_of, bind, of_py; rewrite Hname; simpl.
  - now repeat split.
  - rewrite Hdefault. simpl. now repeat split.
Qed.

(** A record with a name only, all branches asked for. *)
Lemma repository_record_incomplete_sample :
  let repo := JObj [("name", JStr "one")] in
  outcome (backup_repo Sample.hello Sample.two_args "ts" repo 0 initial) = Raise KeyError
  /\ events (backup_repo Sample.hello Sample.two_args "ts" repo 0 initial) = []
  /\ final (backup_repo Sample.hello Sample.two_args "ts" repo 0 initial) = initial.
Proof.
  intros repo.
  apply (repository_record_incomplete Sample.hello Sample.two_args "ts" repo 0 initial
           KeyError).
  right. split; [now exists (JStr "one")|reflexivity].
Defined.

(** ** The fetch loop after cancellation, and what it leaves alone *)

(** X10. Once the flag is set the loop over the repositories fetches
    nothing more: no file is opened, no byte is written, the files are as
    they were and the byte total does not move.  The only requests left are
    for lists of branches, and without [--all-branches] there is none. *)
Theorem nothing_fetched_once_cancelled w args timestamp repos bytes_total s :
  SIGNINT s = true ->
  opens (events (for_repos w args timestamp repos bytes_total s)) = []
  /\ written (events (for_repos w args timestamp repos bytes_total s)) = 0
  /\ files (final (for_repos w args timestamp repos bytes_total s)) = files s
  /\ Forall (is_branches_url args)
       (gets (events (for_repos w args timestamp repos bytes_total s)))
  /\ (all_branches args = false ->
      gets (events (for_repos w args timestamp repos bytes_total s)) = [])
  /\ (forall total,
         outcome (for_repos w args timestamp repos bytes_total s) = Ret total ->
         total = bytes_total).
Proof.
  intros Hs.
  pose proof (for_repos_spec w args timestamp repos bytes_total s)
    as (_ & _ & Hframe & Hcan & Ho).
  unfold wp in *. destruct (Hcan Hs) as (Hop & Hwn & Hurls & Hnone).
  repeat split; auto.
  - apply map_eq. intros p. apply Hframe. rewrite Hop. intros [].
  - intros total Hret. rewrite Hret in Ho. lia.
Qed.

(** The two repositories of the sample, the flag set from the start. *)
Lemma nothing_fetched_once_cancelled_sample :
  let s := signal_handler initial in
  let repos := [Sample.repo "one" "main"; Sample.repo "two" "main"] in
  opens (events (for_repos Sample.hello Sample.hello_args "ts" repos 0 s)) = []
  /\ written (events (for_repos Sample.hello Sample.hello_args "ts" repos 0 s)) = 0
  /\ files (final (for_repos Sample.hello Sample.hello_args "ts" repos 0 s)) = files s
  /\ Forall (is_branches_url Sample.hello_args)
       (gets (events (for_repos Sample.hello Sample.hello_args "ts" repos 0 s)))
  /\ (all_branches Sample.hello_args = false ->
      gets (events (for_repos Sample.hello Sample.hello_args "ts" repos 0 s)) = [])
  /\ (forall total,
         outcome (for_repos Sample.hello Sample.hello_args "ts" repos 0 s) = Ret total ->
         total = 0).
Proof.
  intros s repos.
  apply (nothing_fetched_once_cancelled Sample.hello Sample.hello_args "ts" repos 0 s).
  reflexivity.
Defined.

(** X11. The loop changes a file only by opening it: a path that none of
    its [open] calls names holds at the end what it held before, whatever
    the outcome of the loop.  And the byte total it returns is the total it
    was given plus the bytes handed to [write], never less. *)
Theorem loop_touches_opened_files_only w args timestamp repos bytes_total s :
  (forall p,
      ~ In p (opens (events (for_repos w args timestamp repos bytes_total s))) ->
      files (final (for_repos w args timestamp repos bytes_total s)) !! p = files s !! p)
  /\ (forall total,
         outcome (for_repos w args timestamp repos bytes_total s) = Ret total ->
         total = bytes_total
                 + written (events (for_repos w args timestamp repos bytes_total s))
         /\ bytes_total <= total).
Proof.
  pose proof (for_repos_spec w args timestamp repos bytes_total s)
    as (_ & _ & Hframe & _ & Ho).
  unfold wp in *. split; [exact Hframe|].
  intros total Hret. rewrite Hret in Ho. lia.
Qed.

(** X12. A download that ends the program did not touch the disk: when
    [fetch_branch] leaves by [exit], which only the archive request can
    cause, no file has been opened and the files are as they were. *)
Theorem exit_before_open w args timestamp repo_name branch s c :
  outcome (fetch_branch w args timestamp repo_name branch s) = Exit c ->
  opens (events (fetch_branch w args timestamp repo_name branch s)) = []
  /\ files (final (fetch_branch w args timestamp repo_name branch s)) = files s
  /\ (c = (-1)%Z \/ c = 0%Z).
Proof.
  intros Hexit.
  assert (H : wp (fetch_branch w args timestamp repo_name branch)
                (fun o s' t =>
                   match o with
                   | Exit c => opens t = [] /\ files s' = files s
                               /\ (c = (-1)%Z \/ c = 0%Z)
                   | _ => True
                   end) s).
  { unfold fetch_branch, spinner. wp_go.
    destruct (log_fmt "Fetching" repo_name branch) as [e|fetching]; [exact I|].
    wp_go. eapply wp_mono; [apply make_request_spec|].
    intros o s' t ((t' & -> & Hq) & Hfiles & _ & _ & Ho).
    autorewrite with state in *.
    destruct o as [r|c'|e]; unfold after; [| |exact I].
    - unfold open_wb, file_write. wp_go.
      destruct (w_open w _); wp_go; [|exact I].
      destruct (log_fmt "Saved" repo_name branch); wp_go; exact I.
    - trace_simpl. rewrite (quiet_opens _ Hq). repeat split; auto.
      destruct Ho as [[-> _]| ->]; auto. }
  unfold wp in H. now rewrite Hexit in H.
Qed.

(** The archive is answered by a 404. *)
Lemma exit_before_open_sample :
  let r := {| status_code := 404; resp_headers := ∅; content := [];
              text := "Not Found"; json := None |} in
  let w := {| w_isdir := w_isdir Sample.hello; w_environ := w_environ Sample.hello;
              w_http := fun _ _ _ => GetOk r;
              w_clock := w_clock Sample.hello; w_isoformat := w_isoformat Sample.hello;
              w_makedirs := w_makedirs Sample.hello; w_open := w_open Sample.hello;
              w_sigint := w_sigint Sample.hello; w_repr := w_repr Sample.hello |} in
  opens (events (fetch_branch w Sample.hello_args "ts" (JStr "one") (JStr "main") initial))
  = []
  /\ files (final (fetch_branch w Sample.hello_args "ts" (JStr "one") (JStr "main")
                     initial)) = files initial
  /\ ((-1)%Z = (-1)%Z \/ (-1)%Z = 0%Z).
Proof.
  intros r w.
  apply (exit_before_open w Sample.hello_args "ts" (JStr "one") (JStr "main") initial
           (-1)).
  vm_compute. reflexivity.
Defined.



(** ** What every run keeps to *)

Section Traces.

Context (T : list Event -> Prop) (HT : additive T).

Lemma traces_ret {A} (a : A) : traces T (ret a).
Proof. intros s. apply HT. Qed.

Lemma traces_raise {A} e : traces T (@raise A e).
Proof. intros s. apply HT. Qed.

Lemma traces_exit {A} c : traces T (@exit A c).
Proof. intros s. apply HT. Qed.

Lemma traces_get : traces T get.
Proof. intros s. apply HT. Qed.

Lemma traces_modify f : traces T (modify f).
Proof. intros s. apply HT. Qed.

Lemma traces_of_py {A} (x : Py A) : traces T (of_py x).
Proof. destruct x; intros s; apply HT. Qed.

Lemma traces_bind {A B} (m : M A) (f : A -> M B) :
  traces T m -> (forall a, traces T (f a)) -> traces T (bind m f).
Proof.
  intros Hm Hf s. unfold bind. specialize (Hm s).
  destruct (outcome (m s)); simpl; auto. apply HT; auto. apply Hf.
Qed.

Lemma traces_try {A} (m : M A) (h : PyExc -> M A) :
  traces T m -> (forall e, traces T (h e)) -> traces T (try_except m h).
Proof.
  intros Hm Hh s. unfold try_except. specialize (Hm s).
  destruct (outcome (m s)); simpl; auto. apply HT; auto. apply Hh.
Qed.

Lemma traces_step w e : T [e] -> T [e; EvSignal] -> traces T (step w e).
Proof. intros H1 H2 s. unfold step. now destruct (w_sigint w (tick s)). Qed.

End Traces.

Ltac traces_step HT :=
  lazymatch goal with
  | |- traces _ (bind _ _) => apply (traces_bind _ HT); [|intros ?]
  | |- traces _ (try_except _ _) => apply (traces_try _ HT); [|intros ?]
  | |- traces _ (ret _) => apply (traces_ret _ HT)
  | |- traces _ (raise _) => apply (traces_raise _ HT)
  | |- traces _ (exit _) => apply (traces_exit _ HT)
  | |- traces _ get => apply (traces_get _ HT)
  | |- traces _ (of_py _) => apply (traces_of_py _ HT)
  | |- traces _ (modify _) => apply (traces_modify _ HT)
  | |- traces _ (step _ _) => apply traces_step
  | |- traces _ (if ?b then _ else _) => destruct b
  | |- traces _ (match ?x with _ => _ end) => destruct x
  | |- traces _ _ => assumption
  end.

Ltac traces_go HT := repeat (traces_step HT).

Lemma additive_Forall (P : Event -> Prop) : additive (Forall P).
Proof. split; [constructor|]. intros t1 t2 H1 H2. now apply Forall_app. Qed.

Lemma additive_within_budget : additive within_budget.
Proof.
  unfold within_budget. split; [simpl; lia|].
  intros t1 t2 H1 H2. rewrite slept_app, gets_app, length_app. lia.
Qed.

Lemma string_app_assoc (a b c : string) : (a +:+ b) +:+ c = a +:+ b +:+ c.
Proof.
  induction a as [|x a IH]; [reflexivity|].
  change (String x ((a +:+ b) +:+ c) = String x (a +:+ b +:+ c)). now f_equal.
Qed.

Lemma archive_path_in_session d timestamp rn b ext :
  exists rest, archive_path d timestamp rn b ext = (d +:+ timestamp) +:+ "/" +:+ rest.
Proof. eexists. unfold archive_path. symmetry. apply string_app_assoc. Qed.

Lemma archive_url_known args rn b :
  known_url args (archive_url (user args) rn b (file_extension args)).
Proof. right. right. now exists rn, b. Qed.

Lemma branches_url_known args rn : known_url args (branches_url (user args) rn).
Proof. right. left. now exists rn. Qed.

Section Discipline.

Context (w : World) (args : Args) (timestamp : string).

Local Abbreviation P := (disciplined w args timestamp).

Lemma disciplined_additive : additive (Forall P).
Proof. apply additive_Forall. Qed.

Ltac events_ok :=
  lazymatch goal with
  | |- Forall _ _ =>
      repeat match goal with
             | |- Forall _ (_ :: _) => constructor
             | |- Forall _ [] => constructor
             end;
      simpl;
      auto using archive_path_in_session, archive_url_known, branches_url_known
  | |- traces _ _ => auto
  | _ => idtac
  end.

Lemma wait_loop_disciplined wait_time_s range :
  traces (Forall P) (wait_loop w wait_time_s range).
Proof.
  induction range as [|i rest IH]; simpl; unfold spinner, poll, time_sleep;
    traces_go disciplined_additive; events_ok.
Qed.

Lemma make_request_disciplined url :
  known_url args url -> traces (Forall P) (make_request w url (headers w)).
Proof.
  intros Hurl. pose proof wait_loop_disciplined.
  unfold make_request, requests_get, rate_limit_check, raise_for_status, logging, spinner.
  traces_go disciplined_additive; events_ok.
Qed.

Lemma fetch_branch_disciplined repo_name branch :
  traces (Forall P) (fetch_branch w args timestamp repo_name branch).
Proof.
  pose proof (make_request_disciplined
                (archive_url (user args) (py_str w repo_name) (py_str w branch)
                   (file_extension args))
                (archive_url_known _ _ _)).
  unfold fetch_branch, spinner, open_wb, file_write.
  traces_go disciplined_additive; events_ok.
Qed.

Lemma for_branches_disciplined repo_name branches bytes_total :
  traces (Forall P) (for_branches w args timestamp repo_name branches bytes_total).
Proof.
  pose proof fetch_branch_disciplined.
  revert bytes_total. induction branches as [|b rest IH]; intros bytes_total; simpl;
    unfold poll; traces_go disciplined_additive; events_ok.
Qed.

Lemma branches_of_disciplined repo repo_name :
  traces (Forall P) (branches_of w args repo repo_name).
Proof.
  pose proof (make_request_disciplined
                (branches_url (user args) (py_str w repo_name))
                (branches_url_known _ _)).
  unfold branches_of, response_json. traces_go disciplined_additive; events_ok.
Qed.

Lemma backup_repo_disciplined repo bytes_total :
  traces (Forall P) (backup_repo w args timestamp repo bytes_total).
Proof.
  pose proof branches_of_disciplined. pose proof for_branches_disciplined.
  unfold backup_repo. traces_go disciplined_additive; events_ok.
Qed.

Lemma for_repos_disciplined repos bytes_total :
  traces (Forall P) (for_repos w args timestamp repos bytes_total).
Proof.
  pose proof backup_repo_disciplined.
  revert bytes_total. induction repos as [|r rest IH]; intros bytes_total; simpl;
    traces_go disciplined_additive; events_ok.
Qed.

End Discipline.


Lemma disciplined_signalled w args timestamp sig :
  Forall (disciplined w args timestamp) (signalled sig).
Proof. destruct sig; repeat constructor. Qed.

Ltac forall_events :=
  rewrite ?Forall_app;
  repeat match goal with
         | |- _ /\ _ => split
         | |- Forall _ (_ :: _) => constructor
         | |- Forall _ [] => constructor
         | |- Forall _ (signalled _) => apply disciplined_signalled
         end;
  simpl; auto using archive_path_in_session, archive_url_known, branches_url_known.

Section DisciplineOfRun.

Context (w : World) (args : Args).

(** In [backup] the timestamp of the session is the one read at its first
    step. *)
Lemma backup_disciplined repos s :
  Forall (disciplined w args (w_isoformat w (w_clock w (tick s))))
    (events (backup w args repos s)).
Proof.
  unfold backup.
  lazymatch goal with
  | |- Forall _ (events (bind _ ?K s)) =>
      set (k := K);
      assert (Hk : forall started,
                 traces (Forall (disciplined w args (w_isoformat w started)))
                   (k started))
  end.
  { intros started. subst k.
    pose proof (additive_Forall (disciplined w args (w_isoformat w started))) as HP.
    pose proof (for_repos_disciplined w args (w_isoformat w started)) as Hloop.
    unfold datetime_now, logging, os_makedirs, spinner.
    traces_go HP; try apply Hloop; forall_events. }
  clearbody k.
  change (wp (bind (datetime_now w) k)
            (fun _ _ t =>
               Forall (disciplined w args (w_isoformat w (w_clock w (tick s)))) t) s).
  unfold datetime_now. wp_go. unfold wp.
  specialize (Hk (w_clock w (tick s)) (stepped sig s)). forall_events.
Qed.

Lemma main_disciplined s :
  exists timestamp, Forall (disciplined w args timestamp) (events (main w args s)).
Proof.
  change (wp (main w args)
            (fun _ _ t => exists timestamp, Forall (disciplined w args timestamp) t) s).
  unfold main, os_path_isdir, logging. wp_go.
  destruct (w_isdir w (dest args)); wp_go; [|exists ""; forall_events].
  assert (Hreq : forall s',
             wp (make_request w (search_url (user args)) (headers w))
               (fun _ _ t => forall timestamp, Forall (disciplined w args timestamp) t) s').
  { intros s' timestamp. apply make_request_disciplined. now left. }
  eapply wp_mono; [apply Hreq|]. intros o s1 t1 H1.
  destruct o as [r|c|e]; unfold after; [|exists ""; forall_events..].
  unfold response_json. destruct (json r) as [body|]; wp_go; [|exists ""; forall_events].
  destruct (getitem_str body "items") as [e|repos]; [exists ""; forall_events|].
  exists (w_isoformat w (w_clock w (tick s1))).
  pose proof (backup_disciplined repos s1). forall_events.
Qed.

End DisciplineOfRun.

Section Budget.

Context (w : World).

Lemma rate_limit_check_slept r s :
  slept (events (rate_limit_check w r s)) <= RATE_LIMIT_WAIT_TIME_S.
Proof.
  change (wp (rate_limit_check w r) (fun _ _ t => slept t <= RATE_LIMIT_WAIT_TIME_S) s).
  unfold rate_limit_check.
  destruct (resp_headers r !! "X-RateLimit-Remaining") as [v|]; [|wp_go; simpl; lia].
  wp_go. destruct (py_int v) as [e|n]; [simpl; lia|].
  destruct (n <? RATE_LIMIT_WARNING_THRESHOLD)%Z; [|wp_go; simpl; lia].
  unfold logging, spinner. wp_go.
  eapply wp_mono; [apply wait_loop_spec|].
  intros o s' t (Hshape & _).
  rewrite length_seq in Hshape.
  assert (Ht : slept t <= RATE_LIMIT_WAIT_TIME_S).
  { rewrite <- slept_beats. destruct o as [[]|c|e]; [| |contradiction].
    - now rewrite Hshape, slept_rounds.
    - destruct Hshape as (_ & k & Hk & ->).
      rewrite slept_app, slept_rounds. simpl. lia. }
  destruct o as [[]|c|e]; unfold after; [wp_go| |]; trace_simpl; lia.
Qed.

Lemma make_request_within_budget url h : traces within_budget (make_request w url h).
Proof.
  intros s. unfold within_budget.
  change (wp (make_request w url h)
            (fun _ _ t => slept t <= RATE_LIMIT_WAIT_TIME_S * length (gets t)) s).
  unfold make_request, requests_get, logging. apply wp_try. wp_go.
  assert (Hwait : forall r s',
             wp (rate_limit_check w r)
               (fun _ _ t => slept t <= RATE_LIMIT_WAIT_TIME_S) s').
  { intros r s'. apply rate_limit_check_slept. }
  destruct (w_http w (nreq s) url h) as [r| | |]; wp_go;
    try (trace_simpl; unfold RATE_LIMIT_WAIT_TIME_S; lia).
  eapply wp_mono; [apply Hwait|]. intros o s' t Ht.
  unfold raise_for_status.
  destruct o as [[]|c|e]; unfold after.
  - destruct (_ && _); wp_go; trace_simpl; unfold RATE_LIMIT_WAIT_TIME_S in *; lia.
  - trace_simpl. unfold RATE_LIMIT_WAIT_TIME_S in *. lia.
  - destruct e; wp_go; trace_simpl; unfold RATE_LIMIT_WAIT_TIME_S in *; lia.
Qed.

Ltac budget_ok :=
  lazymatch goal with
  | |- within_budget _ => unfold within_budget; simpl; lia
  | |- traces _ _ => auto
  | _ => idtac
  end.

Context (args : Args).

Lemma main_within_budget : traces within_budget (main w args).
Proof.
  pose proof additive_within_budget as HT.
  pose proof make_request_within_budget as Hreq.
  assert (Hfetch : forall ts rn b, traces within_budget (fetch_branch w args ts rn b)).
  { intros. unfold fetch_branch, spinner, open_wb, file_write.
    traces_go HT; budget_ok. }
  assert (Hbranches : forall ts rn bs total,
             traces within_budget (for_branches w args ts rn bs total)).
  { intros ts rn bs. induction bs as [|b rest IH]; intros total; simpl; unfold poll;
      traces_go HT; budget_ok. }
  assert (Hlist : forall repo rn, traces within_budget (branches_of w args repo rn)).
  { intros. unfold branches_of, response_json. traces_go HT; budget_ok. }
  assert (Hrepo : forall ts repo total, traces within_budget (backup_repo w args ts repo total)).
  { intros. unfold backup_repo. traces_go HT; budget_ok. }
  assert (Hrepos : forall ts repos total,
             traces within_budget (for_repos w args ts repos total)).
  { intros ts repos. induction repos as [|r rest IH]; intros total; simpl;
      traces_go HT; budget_ok. }
  assert (Hbackup : forall repos, traces within_budget (backup w args repos)).
  { intros. unfold backup, datetime_now, logging, os_makedirs, spinner.
    traces_go HT; budget_ok. }
  unfold main, os_path_isdir, logging, response_json. traces_go HT; budget_ok.
Qed.

End Budget.

(** X14. Every request of a run is one of three: the search for the
    repositories of the user, the list of branches of one of them, or the
    archive of a branch in the format asked for.  All carry the same
    headers: the [Authorization] header with the token of the environment
    when there is one, and nothing else. *)
Theorem requests_of_a_run w args s url h :
  In (EvGet url h) (events (main w args s)) ->
  known_url args url
  /\ h = headers w
  /\ h !! "Authorization"
     = (fun token => "token " +:+ token) <$> (w_environ w !! "GITHUB_PERSONAL_ACCESS_TOKEN")
  /\ (forall k, k <> "Authorization" -> h !! k = None).
Proof.
  intros Hin. destruct (main_disciplined w args s) as [timestamp Hall].
  rewrite List.Forall_forall in Hall. specialize (Hall _ Hin). simpl in Hall.
  destruct Hall as [-> Hurl]. split; [exact Hurl|]. split; [reflexivity|].
  unfold headers. destruct (w_environ w !! "GITHUB_PERSONAL_ACCESS_TOKEN") as [token|];
    simpl; split.
  - apply lookup_insert_eq.
  - intros k Hk. rewrite lookup_insert_ne by congruence. apply lookup_empty.
  - apply lookup_empty.
  - intros k _. apply lookup_empty.
Qed.

(** The search request of Scenario A. *)
Lemma requests_of_a_run_sample :
  known_url Sample.hello_args (search_url "octocat")
  /\ (∅ : gmap string string) = headers Sample.hello
  /\ (∅ : gmap string string) !! "Authorization"
     = (fun token => "token " +:+ token)
         <$> (w_environ Sample.hello !! "GITHUB_PERSONAL_ACCESS_TOKEN")
  /\ (forall k, k <> "Authorization" -> (∅ : gmap string string) !! k = None).
Proof.
  apply (requests_of_a_run Sample.hello Sample.hello_args initial
           (search_url "octocat") ∅).
  vm_compute. right. left. reflexivity.
Defined.

(** X15. A run sleeps only in the backoff wait: one second at a time, and
    at most ten seconds for each request it has sent. *)
Theorem sleep_budget w args s :
  (forall secs, In (EvSleep secs) (events (main w args s)) -> secs = 1)
  /\ slept (events (main w args s))
     <= RATE_LIMIT_WAIT_TIME_S * length (gets (events (main w args s))).
Proof.
  split.
  - intros secs Hin. destruct (main_disciplined w args s) as [timestamp Hall].
    rewrite List.Forall_forall in Hall. exact (Hall _ Hin).
  - apply main_within_budget.
Qed.

(** X16. One session, one directory.  There is a timestamp such that the
    only directory a run creates is the destination, with its slash,
    followed by that timestamp, and every file it opens or writes has a
    path that starts with that directory and a slash. *)
Theorem files_in_session_directory w args s :
  exists timestamp,
    let directory := dest' args +:+ timestamp in
    (forall path, In (EvMakedirs path) (events (main w args s)) -> path = directory)
    /\ (forall path, In (EvOpen path) (events (main w args s)) ->
                     exists rest, path = directory +:+ "/" +:+ rest)
    /\ (forall path data, In (EvWrite path data) (events (main w args s)) ->
                          exists rest, path = directory +:+ "/" +:+ rest).
Proof.
  destruct (main_disciplined w args s) as [timestamp Hall].
  rewrite List.Forall_forall in Hall. exists timestamp. simpl.
  repeat split; intros; exact (Hall _ ltac:(eassumption)).
Qed.

(** ** Destination and sizes *)

Lemma endswith_slash_append (s : string) : endswith_slash (s +:+ "/") = true.
Proof.
  induction s as [|c s IH]; [reflexivity|].
  change (String c s +:+ "/") with (String c (s +:+ "/")).
  destruct s as [|c' s']; [reflexivity|exact IH].
Qed.

(** X17. The destination the paths are built from always ends with a
    slash: it is the destination given when that ends with one, and the
    destination given followed by a slash otherwise. *)
Theorem destination_ends_with_slash args :
  endswith_slash (dest' args) = true
  /\ (endswith_slash (dest args) = true -> dest' args = dest args)
  /\ (endswith_slash (dest args) = false -> dest' args = dest args +:+ "/").
Proof.
  unfold dest'. destruct (endswith_slash (dest args)) eqn:E.
  - repeat split; auto. discriminate.
  - split; [apply endswith_slash_append|]. split; [discriminate|reflexivity].
Qed.

Local Open Scope N_scope.

Lemma tenths_bounds num den :
  0 < den -> den <= num -> num < 1024 * den ->
  10 <= tenths num den <= 10240.
Proof.
  intros Hden Hlo Hhi. unfold tenths, round_half_even.
  assert (Hq1 : 10 <= 10 * num / den) by (apply N.div_le_lower_bound; lia).
  assert (Hq2 : 10 * num / den < 10240) by (apply N.Div0.div_lt_upper_bound; lia).
  destruct (2 * _ <? den); [lia|].
  destruct (den <? 2 * _); [lia|].
  destruct (N.even _); lia.
Qed.

Lemma sizeof_fmt_from_skip us1 unit us2 num den suffix :
  1024 ^ N.of_nat (length us1) * den <= num ->
  num < 1024 ^ N.of_nat (S (length us1)) * den ->
  sizeof_fmt_from (us1 ++ unit :: us2) num den suffix
  = (format_1f num (1024 ^ N.of_nat (length us1) * den) +:+ unit +:+ suffix)%string.
Proof.
  revert den. induction us1 as [|u us1 IH]; intros den Hlo Hhi.
  - simpl length in *. change (N.of_nat 1) with 1 in Hhi.
    change (N.of_nat 0) with 0 in *. rewrite N.pow_1_r in Hhi.
    rewrite N.pow_0_r, N.mul_1_l in *. simpl.
    apply N.ltb_lt in Hhi. now rewrite Hhi.
  - simpl length in *. rewrite !Nat2N.inj_succ, !N.pow_succ_r' in *.
    set (p := 1024 ^ N.of_nat (length us1)) in *.
    assert (Hp : 0 < p).
    { assert (p <> 0) by (subst p; apply N.pow_nonzero; lia). lia. }
    simpl app. simpl sizeof_fmt_from.
    assert (Hge : (num <? 1024 * den) = false).
    { apply N.ltb_ge. nia. }
    rewrite Hge. rewrite IH.
    + now replace (p * (1024 * den)) with (1024 * p * den) by lia.
    + nia.
    + nia.
Qed.

(** X18. A count below 1024 is printed whole: its digits, [.0] and the
    suffix, with no unit. *)
Theorem sizeof_fmt_bytes num suffix :
  num < 1024 ->
  sizeof_fmt num suffix = (decimal num +:+ ".0" +:+ suffix)%string.
Proof.
  intros Hnum. unfold sizeof_fmt, units. simpl sizeof_fmt_from.
  change (1024 * 1) with 1024. apply N.ltb_lt in Hnum. rewrite Hnum.
  unfold format_1f, tenths, round_half_even.
  rewrite N.div_1_r, N.mod_1_r. change (2 * 0 <? 1) with true.
  cbv iota. rewrite (N.mul_comm 10 num), N.div_mul by lia.
  rewrite N.Div0.mod_mul, string_app_assoc. reflexivity.
Qed.

(** A count of 512 bytes. *)
Lemma sizeof_fmt_bytes_sample : sizeof_fmt 512 "B" = "512.0B"%string.
Proof. apply (sizeof_fmt_bytes 512 "B"). reflexivity. Defined.

(** X19. The unit is chosen by magnitude.  A count below [2^53] that is at
    least [1024^k] and less than [1024^(k+1)] is shown divided by [1024^k]
    and rounded to one decimal, followed by the [k]-th unit and the suffix;
    the number shown lies between 1.0 and 1024.0, both included, the
    rounding coming after the choice of the unit. *)
Theorem sizeof_fmt_unit num k suffix :
  (k < 8)%nat ->
  1024 ^ N.of_nat k <= num < 1024 ^ N.of_nat (S k) ->
  num < 2 ^ 53 ->
  sizeof_fmt num suffix
  = (format_1f num (1024 ^ N.of_nat k) +:+ nth k units ""%string +:+ suffix)%string
  /\ 10 <= tenths num (1024 ^ N.of_nat k) <= 10240.
Proof.
  intros Hk [Hlo Hhi] _. split.
  - unfold sizeof_fmt.
    assert (Hsplit : units = firstn k units ++ nth k units ""%string :: skipn (S k) units).
    { do 8 (destruct k as [|k]; [reflexivity|]). lia. }
    assert (Hlen : length (firstn k units) = k).
    { rewrite List.length_firstn. simpl. lia. }
    rewrite Hsplit at 1.
    rewrite sizeof_fmt_from_skip; rewrite Hlen, ?N.mul_1_r; auto.
  - apply tenths_bounds; auto.
    + assert (1024 ^ N.of_nat k <> 0) by (apply N.pow_nonzero; lia). lia.
    + rewrite Nat2N.inj_succ, N.pow_succ_r' in Hhi. exact Hhi.
Qed.

(** One byte short of a mebibyte. *)
Lemma sizeof_fmt_unit_sample :
  sizeof_fmt 1048575 "B"
  = (format_1f 1048575 (1024 ^ N.of_nat 1) +:+ nth 1 units ""%string +:+ "B")%string
  /\ 10 <= tenths 1048575 (1024 ^ N.of_nat 1) <= 10240.
Proof.
  apply (sizeof_fmt_unit 1048575 1 "B");
    [lia|split; [apply N.leb_le|apply N.ltb_lt]; reflexivity|reflexivity].
Defined.

Local Close Scope N_scope.
